(** * python_shorts: the notebooks' snippets, embedded and verified

    The repository is three notebooks.  Two of them contain code:

    - [passing_data_around.ipynb]: tuple unpacking in a training loop, the
      [ValueError] a two-target unpacking of a triple raises, and extended
      iterable unpacking ([*x, y], [frst, *mid, last], [*everything,]);
    - the caching notebook: three versions of [ExtendedFolder.get_img_dims]
      (uncached, cached by hand in [self._img_dims], decorated with
      [functools.lru_cache]) and the memoized [invert_and_multiply].

    The snippets are a few lines each; what they exercise is the behaviour of
    the interpreter (the unpacking routine of the evaluation loop, the
    iterator protocol, argument binding) and of [functools.lru_cache].  Those
    are embedded here as executable definitions, and each notebook cell is a
    term built from them. *)

From stdpp Require Import base option list gmap strings pretty.
From Stdlib Require Import ZArith Lia.

Local Open Scope nat_scope.
#[local] Set Warnings "-clear-no-such-hyp".

(** ** Exceptions and results *)

Module Py.

(** What the unpacking routine of the evaluation loop can complain about. *)
Inductive unpack_error :=
  | NotEnough (expected got : nat)
  | NotEnoughAtLeast (expected got : nat)
  | TooMany (expected : nat).

(** Binding [given] positional arguments to a function of [expected]
    parameters; iterating a value that is no iterable. *)
Inductive type_error :=
  | ArityMismatch (fname : string) (expected given : nat)
  | NotIterable (type_name : string).

(** [OverflowError]: an int too large to convert to a float. *)
Inductive exn :=
  | ValueError (e : unpack_error)
  | TypeError (e : type_error)
  | OverflowError.

(** The text the interpreter formats for a [ValueError] of unpacking. *)
Definition evalue (e : unpack_error) : string :=
  (match e with
  | NotEnough n i =>
      "not enough values to unpack (expected " +:+ pretty n +:+ ", got " +:+ pretty i +:+ ")"
  | NotEnoughAtLeast n i =>
      "not enough values to unpack (expected at least " +:+ pretty n +:+ ", got " +:+ pretty i +:+ ")"
  | TooMany n =>
      "too many values to unpack (expected " +:+ pretty n +:+ ")"
  end)%string.

(** A computation either raises or returns. *)
Inductive result (A : Type) : Type :=
  | Raise (e : exn)
  | Return (a : A).
Global Arguments Raise {A} e.
Global Arguments Return {A} a.

Global Instance result_ret : MRet result := λ A a, Return a.
Global Instance result_bind : MBind result := λ A B k m,
  match m with
  | Raise e => Raise e
  | Return a => k a
  end.

Definition raised {A} (m : result A) : bool :=
  match m with Raise _ => true | Return _ => false end.

End Py.

Import Py.

(** ** The iterator protocol

    [next s] is [__next__]: [None] stands for [StopIteration].  All the
    iterables of the notebooks are finite; [remaining] bounds the number of
    items still to come, which makes draining an iterator a total function. *)

Class Iterator (S A : Type) := {
  next : S → option (A * S);
  remaining : S → nat;
  next_remaining : ∀ s a s', next s = Some (a, s') → remaining s' < remaining s
}.

Module Iter.
Section drain.
Context {S A : Type} `{!Iterator S A}.

(** [list(it)]: the items in the order [__next__] hands them out. *)
Fixpoint to_list_aux (fuel : nat) (s : S) : list A :=
  match fuel with
  | 0 => []
  | Datatypes.S fuel =>
      match next s with
      | None => []
      | Some (a, s') => a :: to_list_aux fuel s'
      end
  end.

Definition to_list (s : S) : list A := to_list_aux (remaining s) s.

(** Up to [n] calls of [__next__]: the items obtained and the iterator
    where it stopped ([None] once it is exhausted). *)
Fixpoint take_next (n : nat) (s : S) : list A * option S :=
  match n with
  | 0 => ([], Some s)
  | Datatypes.S n =>
      match next s with
      | None => ([], None)
      | Some (a, s') => let '(l, r) := take_next n s' in (a :: l, r)
      end
  end.
End drain.
End Iter.

(** A list or a tuple is iterated from its head. *)
Global Program Instance list_iterator {A} : Iterator (list A) A := {|
  next l := match l with [] => None | a :: l' => Some (a, l') end;
  remaining l := length l
|}.
Next Obligation. intros A [|b l] a s' [=]; subst; simpl; lia. Qed.

(** [range(stop)] and [range(start, stop)]. *)
Record range := Range { range_start : Z; range_stop : Z }.

Definition range_next (r : range) : option (Z * range) :=
  if (range_start r <? range_stop r)%Z
  then Some (range_start r, Range (range_start r + 1) (range_stop r))
  else None.

Global Program Instance range_iterator : Iterator range Z := {|
  next := range_next;
  remaining r := Z.to_nat (range_stop r - range_start r)
|}.
Next Obligation.
  intros [a b] x s'; unfold range_next; simpl.
  destruct (Z.ltb_spec a b); intros [=]; subst; simpl; lia.
Qed.

(** A generator expression [(f item for item in src)]: it pulls one item of
    [src] for each item it yields. *)
Record generator (S A B : Type) := Generator { gen_expr : A → B; gen_src : S }.
Global Arguments Generator {S A B} gen_expr gen_src.
Global Arguments gen_expr {S A B} g.
Global Arguments gen_src {S A B} g.

Definition generator_next {S A B} `{!Iterator S A} (g : generator S A B)
  : option (B * generator S A B) :=
  match next (gen_src g) with
  | None => None
  | Some (a, s') => Some (gen_expr g a, Generator (gen_expr g) s')
  end.

Global Program Instance generator_iterator {S A B} `{!Iterator S A}
  : Iterator (generator S A B) B := {|
  next := generator_next;
  remaining g := remaining (gen_src g)
|}.
Next Obligation.
  intros S A B ? [f s] b g'; unfold generator_next; simpl.
  destruct (next s) as [[a s']|] eqn:E; intros [=]; subst; simpl.
  by eapply next_remaining.
Qed.

(** [zip(it1, ..., itn)]: asks each iterator in turn for an item and stops as
    soon as one of them is exhausted; the items form a tuple. *)
Fixpoint zip_step {S A} `{!Iterator S A} (its : list S) : option (list A * list S) :=
  match its with
  | [] => Some ([], [])
  | s :: its =>
      match next s with
      | None => None
      | Some (a, s') =>
          match zip_step its with
          | None => None
          | Some (t, its') => Some (a :: t, s' :: its')
          end
      end
  end.

Record zip (S : Type) := Zip { zip_its : list S }.
Global Arguments Zip {S} zip_its.
Global Arguments zip_its {S} z.

Definition zip_next {S A} `{!Iterator S A} (z : zip S) : option (list A * zip S) :=
  match zip_its z with
  | [] => None
  | _ :: _ =>
      match zip_step (zip_its z) with
      | None => None
      | Some (t, its') => Some (t, Zip its')
      end
  end.

Definition zip_remaining {S A} `{!Iterator S A} (z : zip S) : nat :=
  match zip_its z with
  | [] => 0
  | s :: _ => remaining s
  end.

Global Program Instance zip_iterator {S A} `{!Iterator S A}
  : Iterator (zip S) (list A) := {|
  next := zip_next;
  remaining := zip_remaining
|}.
Next Obligation.
  intros S A ? [[|s its]] t z'; unfold zip_next, zip_remaining; simpl; [done|].
  destruct (next s) as [[a s']|] eqn:E; [|done].
  destruct (zip_step its) as [[t' its']|]; intros [=]; subst; simpl.
  by eapply next_remaining.
Qed.

(** ** Unpacking

    The routine of the evaluation loop behind every assignment to a target
    list.  [argcnt] targets stand before the starred one, [argcntafter] after
    it; [argcntafter = None] is a target list without a star (the loop's
    [-1]).  It returns what is bound to the targets before the star, to the
    starred target (a list made for it) and to the targets after it. *)

Definition unpacked (A : Type) : Type := list A * option (list A) * list A.

Definition unpack_iterable {S A} `{!Iterator S A}
    (argcnt : nat) (argcntafter : option nat) (v : S) : result (unpacked A) :=
  let '(front, it) := Iter.take_next argcnt v in
  match it with
  | None =>
      match argcntafter with
      | None => Raise (ValueError (NotEnough argcnt (length front)))
      | Some after =>
          Raise (ValueError (NotEnoughAtLeast (argcnt + after) (length front)))
      end
  | Some it =>
      match argcntafter with
      | None =>
          match next it with
          | None => Return (front, None, [])
          | Some _ => Raise (ValueError (TooMany argcnt))
          end
      | Some after =>
          let l := Iter.to_list it in
          let ll := length l in
          if ll <? after
          then Raise (ValueError (NotEnoughAtLeast (argcnt + after) (argcnt + ll)))
          else Return (front, Some (take (ll - after) l), drop (ll - after) l)
      end
  end.

(** ** Values, printing and calls *)

(** The values the cells of [passing_data_around.ipynb] handle.  A float is
    kept as its literal: the notebook only passes floats around and prints
    them.  [Array] is a numpy array; iterating it yields its rows. *)
#[warnings="-register-all"]
Inductive value :=
  | Int (z : Z)
  | Float (lit : string)
  | Str (s : string)
  | Array (rows : list value).

(** A printed line: the pieces of an f-string, text or an interpolated
    value. *)
Inductive fragment :=
  | Text (s : string)
  | Interp (v : value).

Definition line : Type := list fragment.

(** A cell runs against the standard output and either raises or returns. *)
Definition io (A : Type) : Type := list line → list line * result A.

Global Instance io_ret : MRet io := λ A a out, (out, Return a).
Global Instance io_bind : MBind io := λ A B k m out,
  match m out with
  | (out', Raise e) => (out', Raise e)
  | (out', Return a) => k a out'
  end.

Definition print (l : line) : io unit := λ out, (out ++ [l], Return ()).
Definition lift {A} (r : result A) : io A := λ out, (out, r).

(** [for target in it: body].  The loop threads the bindings [B] the body
    leaves behind, which stay visible after the loop. *)
Fixpoint for_in_aux {S A B} `{!Iterator S A}
    (fuel : nat) (it : S) (body : B → A → io B) (b : B) : io B :=
  match fuel with
  | 0 => mret b
  | Datatypes.S fuel =>
      match next it with
      | None => mret b
      | Some (a, it') => b' ← body b a; for_in_aux fuel it' body b'
      end
  end.

Definition for_in {S A B} `{!Iterator S A}
    (it : S) (body : B → A → io B) (b : B) : io B :=
  for_in_aux (remaining it) it body b.

(** A loop over an iterator is a loop over the list of its items. *)
Fixpoint for_list {A B} (l : list A) (body : B → A → io B) (b : B) : io B :=
  match l with
  | [] => mret b
  | a :: l => b' ← body b a; for_list l body b'
  end.

(** Positional arguments of a call: [f( *x, y)] passes the items of [x]
    followed by [y]. *)
Definition star_args {S A} `{!Iterator S A} (x : S) (rest : list A) : list A :=
  Iter.to_list x ++ rest.

(** Binding positional arguments to the parameters of [forward]. *)
Definition bind2 {A B} (fname : string) (f : A → A → io B) (args : list A) : io B :=
  match args with
  | [a; b] => f a b
  | _ => lift (Raise (TypeError (ArityMismatch fname 2 (length args))))
  end.

Definition bind3 {A B} (fname : string) (f : A → A → A → io B) (args : list A) : io B :=
  match args with
  | [a; b; c] => f a b c
  | _ => lift (Raise (TypeError (ArityMismatch fname 3 (length args))))
  end.

(** ** [passing_data_around.ipynb] *)

Module PassingDataAround.

Module Model.
Definition forward (x y : value) : io unit :=
  print [Text "Learning from x="; Interp x; Text " and y="; Interp y].
End Model.

Module EmbeddingModel.
Definition forward (cont idx y : value) : io unit :=
  print [Text "Learning from cont="; Interp cont; Text ", idx="; Interp idx;
         Text " and y="; Interp y].
End EmbeddingModel.

(** [m(...)] and [em(...)]: calling a module calls its [forward] with the
    same positional arguments. *)
Definition m (args : list value) : io unit := bind2 "forward" Model.forward args.
Definition em (args : list value) : io unit := bind3 "forward" EmbeddingModel.forward args.

Definition rows (a : value) : list value :=
  match a with
  | Array rows => rows
  | _ => []
  end.

Definition xs : value := Array [Array [Float "1.7"]; Array [Float "0.3"]].
Definition ys : value := Array [Array [Int 2]; Array [Int 4]].
Definition cont_values : value := Array [Array [Float "1.7"]; Array [Float "0.3"]].
Definition embedding_idxs : value := Array [Array [Int 1]; Array [Int 3]].

(** [for x, y in train_set: model(x, y)] *)
Definition body_x_y {S} `{!Iterator S value}
    (model : list value → io unit) (batch : S) : io unit :=
  '(xy, _, _) ← lift (unpack_iterable 2 None batch);
  match xy with
  | [x; y] => model [x; y]
  | _ => mret ()
  end.

Definition loop_x_y {S} `{!Iterator S (list value)}
    (model : list value → io unit) (train_set : S) : io unit :=
  for_in train_set (λ _ batch, body_x_y model batch) ().

(** [for *x, y in train_set: model( *x, y)] *)
Definition body_starx_y {S} `{!Iterator S value}
    (model : list value → io unit) (batch : S) : io unit :=
  '(_, x, after) ← lift (unpack_iterable 0 (Some 1) batch);
  match x, after with
  | Some x, [y] => model (star_args x [y])
  | _, _ => mret ()
  end.

Definition loop_starx_y {S} `{!Iterator S (list value)}
    (model : list value → io unit) (train_set : S) : io unit :=
  for_in train_set (λ _ batch, body_starx_y model batch) ().

(** What the loop is compared with: the three components passed by name. *)
Definition loop_cont_idx_y {S} `{!Iterator S (list value)}
    (model : list value → io unit) (train_set : S) : io unit :=
  for_in train_set (λ _ batch,
    match batch with
    | [cont; idx; y] => model [cont; idx; y]
    | _ => lift (Raise (ValueError (if length batch <? 3
                                    then NotEnough 3 (length batch)
                                    else TooMany 3)))
    end) ().

Definition cell1 : io unit :=
  let train_set := Zip [rows xs; rows ys] in
  loop_x_y m train_set.

Definition cell2 : io unit :=
  let train_set := Zip [rows cont_values; rows embedding_idxs; rows ys] in
  loop_x_y em train_set.

Definition cell3 : io unit :=
  let train_set := Zip [rows cont_values; rows embedding_idxs; rows ys] in
  loop_starx_y em train_set.

(** The cells that end in an expression display its value. *)
Definition cell4 : io (list value) :=
  let lst := [[Int 0; Int 1; Int 2; Int 3; Str "last"]] in
  bound ← for_in lst (λ _ item,
    '(_, all_but_last, last) ← lift (unpack_iterable 0 (Some 1) item);
    mret (all_but_last, last)) (None, []);
  mret (default [] bound.1).

Definition cell5 : io (list value) :=
  '(frst, mid, last) ←
    lift (unpack_iterable 1 (Some 1) [Str "first"; Int 0; Int 1; Int 2; Str "last"]);
  mret (default [] mid).

Definition cell6 : io (list value) :=
  '(frst, mid, last) ←
    lift (unpack_iterable 1 (Some 1)
            (Generator (λ item : value, item) [Str "first"; Int 0; Int 1; Int 2; Str "last"]));
  mret (default [] mid).

Definition cell7 : io (list Z) :=
  '(_, everything, _) ← lift (unpack_iterable 0 (Some 0) (Range 0 5));
  mret (default [] everything).

(** The code cells in order, each against an empty output area; what a cell
    displays is dropped, what it prints and whether it raises is kept. *)
Definition run_cell {A} (cell : io A) : list line * result () :=
  let '(out, r) := cell [] in (out, _ ← r; mret ()).

Definition cells : list (list line * result ()) :=
  [run_cell cell1; run_cell cell2; run_cell cell3; run_cell cell4;
   run_cell cell5; run_cell cell6; run_cell cell7].

End PassingDataAround.

(** ** [exuberant_ctags_with_vim.ipynb]

    Three markdown cells: nothing runs. *)
Module ExuberantCtags.
Definition cells : list (list line * result ()) := [].
End ExuberantCtags.

(** ** [functools.lru_cache]

    The decorator the caching notebook applies, [@lru_cache()]: a cache of at
    most [maxsize] results (128 when the decorator is given no argument, the
    [maxsize=128] cell 12 displays), keyed by the argument, which forgets the
    least recently used entry when a new one does not fit.

    [K] is the type of the (hashable) argument, [V] of the result; the
    decorated function acts on some state [E] of its own (a clock, a log). *)

Module CacheInfo.
Record t := Make { hits : nat; misses : nat; maxsize : nat; currsize : nat }.
End CacheInfo.

Module Functools.
Section lru_cache.
Context {K V E : Type} `{Countable K}.
Variable maxsize : nat.
Variable user_function : K → E → V * E.

(** The wrapper's state.  [cache] lists the entries from the least to the
    most recently used: it stands for both the dictionary and the queue of
    links that orders it. *)
Record lru := Lru {
  cache : list (K * V);
  hits : nat;
  misses : nat;
  full : bool
}.

Definition empty : lru := Lru [] 0 0 false.

Fixpoint cache_get (key : K) (c : list (K * V)) : option V :=
  match c with
  | [] => None
  | (k, v) :: c => if decide (key = k) then Some v else cache_get key c
  end.

Definition unlink (key : K) (c : list (K * V)) : list (K * V) :=
  filter (λ kv, kv.1 ≠ key) c.

Definition wrapper (key : K) (st : lru) (e : E) : V * lru * E :=
  if decide (maxsize = 0) then
    (* no caching, only the statistics *)
    let '(result, e') := user_function key e in
    (result, Lru (cache st) (hits st) (Datatypes.S (misses st)) (full st), e')
  else
    match cache_get key (cache st) with
    | Some result =>
        (* a hit: the entry becomes the most recently used one *)
        (result,
         Lru (unlink key (cache st) ++ [(key, result)])
             (Datatypes.S (hits st)) (misses st) (full st),
         e)
    | None =>
        let '(result, e') := user_function key e in
        if full st then
          (* the oldest entry makes room for the new one *)
          (result,
           Lru (tail (cache st) ++ [(key, result)])
               (hits st) (Datatypes.S (misses st)) (full st),
           e')
        else
          let c := cache st ++ [(key, result)] in
          (result,
           Lru c (hits st) (Datatypes.S (misses st))
               (bool_decide (maxsize ≤ length c)),
           e')
    end.

Definition cache_info (st : lru) : CacheInfo.t :=
  CacheInfo.Make (hits st) (misses st) maxsize (length (cache st)).

Definition cache_clear (st : lru) : lru := Lru [] 0 0 false.

(** A sequence of calls, one after the other; the results in order. *)
Fixpoint calls (keys : list K) (st : lru) (e : E) : list V * lru * E :=
  match keys with
  | [] => ([], st, e)
  | key :: keys =>
      let '(result, st', e') := wrapper key st e in
      let '(results, st'', e'') := calls keys st' e' in
      (result :: results, st'', e'')
  end.

(** The state is well formed: no key twice, and [full] says whether the
    cache has reached [maxsize]. *)
Definition wf st : Prop :=
  NoDup (cache st).*1 ∧ full st = bool_decide (maxsize ≤ length (cache st)).

(** The keys cached and those of the calls to come fit in the cache. *)
Definition fits st (keys : list K) : Prop :=
  size (list_to_set ((cache st).*1 ++ keys) : gset K) ≤ maxsize.
End lru_cache.

Global Arguments lru K V : clear implicits.
Global Arguments empty {K V}.
Global Arguments cache_clear {K V} st.

(** [@lru_cache()] *)
Definition default_maxsize : nat := 128.

(** The decorated function with a log of the arguments its body ran on. *)
Definition traced {K V E} (user_function : K → E → V * E)
    : K → list K * E → V * (list K * E) :=
  λ key '(log, e),
    let '(result, e') := user_function key e in
    (result, (log ++ [key], e')).

(** The wrapper around a function that may raise.  The exception leaves the
    wrapper from the call of the function: nothing is stored and nothing is
    counted.  [wrapper] above is this wrapper around a function that
    returns. *)
Section lru_cache_raising.
Context {K V E : Type} `{Countable K}.
Variable maxsize : nat.
Variable user_function : K → E → result V * E.

Definition wrapper_exn (key : K) (st : lru K V) (e : E)
    : result V * lru K V * E :=
  if decide (maxsize = 0) then
    match user_function key e with
    | (Raise x, e') => (Raise x, st, e')
    | (Return result, e') =>
        (Return result,
         Lru (cache st) (hits st) (Datatypes.S (misses st)) (full st), e')
    end
  else
    match cache_get key (cache st) with
    | Some result =>
        (Return result,
         Lru (unlink key (cache st) ++ [(key, result)])
             (Datatypes.S (hits st)) (misses st) (full st),
         e)
    | None =>
        match user_function key e with
        | (Raise x, e') => (Raise x, st, e')
        | (Return result, e') =>
            if full st then
              (Return result,
               Lru (tail (cache st) ++ [(key, result)])
                   (hits st) (Datatypes.S (misses st)) (full st),
               e')
            else
              let c := cache st ++ [(key, result)] in
              (Return result,
               Lru c (hits st) (Datatypes.S (misses st))
                   (bool_decide (maxsize ≤ length c)),
               e')
        end
    end.

End lru_cache_raising.

End Functools.

(** The counters as the specification words them: among the calls [keys],
    made after the arguments [seen], those whose argument had been seen
    already and those whose argument comes for the first time; and the number
    of distinct arguments. *)
Module Memo.
Section counters.
Context {K : Type} `{Countable K}.

Fixpoint seen_again (seen keys : list K) : nat :=
  match keys with
  | [] => 0
  | key :: keys =>
      (if decide (key ∈ seen) then 1 else 0) + seen_again (key :: seen) keys
  end.

Fixpoint first_time (seen keys : list K) : nat :=
  match keys with
  | [] => 0
  | key :: keys =>
      (if decide (key ∈ seen) then 0 else 1) + first_time (key :: seen) keys
  end.

Definition distinct (keys : list K) : nat := size (list_to_set keys : gset K).
End counters.

Section observations.
Context {K V E : Type} `{Countable K}.
Variable maxsize : nat.
Variable user_function : K → E → V * E.

(** The calls [keys] made right after a [cache_clear()]: the results, the
    arguments the body of the function ran on, and [cache_info()] at the
    end. *)
Definition after_clear (st : Functools.lru K V) (keys : list K) (e : E)
    : list V * Functools.lru K V * (list K * E) :=
  Functools.calls maxsize (Functools.traced user_function) keys
    (Functools.cache_clear st) ([], e).

Definition results (st : Functools.lru K V) (keys : list K) (e : E) : list V :=
  (after_clear st keys e).1.1.


Definition info (st : Functools.lru K V) (keys : list K) (e : E) : CacheInfo.t :=
  Functools.cache_info maxsize (after_clear st keys e).1.2.



End observations.
End Memo.

(** ** The caching notebook *)

Module Caching.

(** Seconds spent in [time.sleep], and the identities handed out to the
    objects created so far. *)
Record world := World { clock : nat; next_id : nat }.

(** A list object: its identity and its items.  No cell changes a list
    after it is made, so the items need not live in a store. *)
Record pylist (A : Type) := PyList { id : nat; items : list A }.
Global Arguments PyList {A} id items.
Global Arguments id {A} p.
Global Arguments items {A} p.

Definition sleep (secs : nat) (w : world) : world :=
  World (clock w + secs) (next_id w).

(** Evaluating a list display makes a new list object. *)
Definition new_list {A} (l : list A) (w : world) : pylist A * world :=
  (PyList (next_id w) l, World (clock w) (Datatypes.S (next_id w))).

Definition new_object (w : world) : nat * world :=
  (next_id w, World (clock w) (Datatypes.S (next_id w))).

Definition dim : Type := Z * Z.

(** Truth value of [self._img_dims]: [None] and the empty list are false. *)
Definition truthy {A} (o : option (pylist A)) : bool :=
  match o with
  | None => false
  | Some l => negb (bool_decide (length (items l) = 0))
  end.

(** Something with a [get_img_dims] method.  [D] is the dataset together with
    the state the method keeps between calls.  The method returns a Python
    value: [None] or a list of dimensions. *)
Class ImgDataset (D : Type) :=
  get_img_dims : D → world → option (pylist dim) * D * world.

Definition img_dims_literal : list dim := [(10, 20); (10, 20); (40, 40)]%Z.

(** [n] calls of [get_img_dims()] in a row, and what each returned. *)
Fixpoint get_img_dims_n {D} `{!ImgDataset D} (n : nat) (d : D) (w : world)
    : list (option (pylist dim)) * D * world :=
  match n with
  | 0 => ([], d, w)
  | Datatypes.S n =>
      let '(r, d, w) := get_img_dims d w in
      let '(rs, d, w) := get_img_dims_n n d w in
      (r :: rs, d, w)
  end.

(** Cell 2: no caching. *)
Module Uncached.
Record ExtendedFolder := Build {}.

Definition __init__ : ExtendedFolder := Build.

Definition get_img_dims_ (self : ExtendedFolder) (w : world)
    : option (pylist dim) * ExtendedFolder * world :=
  let w := sleep 5 w in
  let '(l, w) := new_list img_dims_literal w in
  (Some l, self, w).

Global Instance dataset : ImgDataset ExtendedFolder := get_img_dims_.
End Uncached.

(** Cell 4: the result kept in [self._img_dims]. *)
Module ManualCache.
Record ExtendedFolder := Build { _img_dims : option (pylist dim) }.

Definition __init__ : ExtendedFolder := Build None.

Definition get_img_dims_ (self : ExtendedFolder) (w : world)
    : option (pylist dim) * ExtendedFolder * world :=
  let '(self, w) :=
    if negb (truthy (_img_dims self)) then
      let w := sleep 5 w in
      let '(l, w) := new_list img_dims_literal w in
      (Build (Some l), w)
    else (self, w) in
  (_img_dims self, self, w).

Global Instance dataset : ImgDataset ExtendedFolder := get_img_dims_.
End ManualCache.

(** Cell 6: the method decorated with [@lru_cache()].  The cache belongs to
    the function, so all instances share it; the key is [self], an object
    without [__eq__] or [__hash__] of its own, which is compared by
    identity. *)
Module LruCached.
Record ExtendedFolder := Build { self_id : nat }.

Global Instance ExtendedFolder_eq_dec : EqDecision ExtendedFolder.
Proof. solve_decision. Defined.
Global Instance ExtendedFolder_countable : Countable ExtendedFolder :=
  inj_countable' self_id Build (λ x, match x with Build _ => eq_refl end).

Definition __init__ (w : world) : ExtendedFolder * world :=
  let '(i, w) := new_object w in (Build i, w).

(** The undecorated method. *)
Definition get_img_dims_body (self : ExtendedFolder) (w : world)
    : option (pylist dim) * world :=
  let w := sleep 5 w in
  let '(l, w) := new_list img_dims_literal w in
  (Some l, w).

Definition method_cache : Type :=
  Functools.lru ExtendedFolder (option (pylist dim)).

Definition get_img_dims_ (self : ExtendedFolder) (c : method_cache) (w : world)
    : option (pylist dim) * method_cache * world :=
  Functools.wrapper Functools.default_maxsize get_img_dims_body self c w.

Global Instance dataset : ImgDataset (ExtendedFolder * method_cache) :=
  λ '(self, c) w,
    let '(r, c', w') := get_img_dims_ self c w in (r, (self, c'), w').
End LruCached.

(** [collections.Counter(iterable)]: one more for each item; of [None], the
    empty counter. *)
Definition count_elements (l : list dim) (c : gmap dim nat) : gmap dim nat :=
  foldl (λ c elem, <[elem := Datatypes.S (default 0 (c !! elem))]> c) c l.

Definition Counter (iterable : option (pylist dim)) : gmap dim nat :=
  match iterable with
  | None => ∅
  | Some l => count_elements (items l) ∅
  end.

(** A numpy array, as far as the notebook determines it: the draws of
    [np.random] are not known, and no cell looks at an entry. *)
Inductive ndarray :=
  | Rand (shape : list Z)
  | Randn (shape : list Z)
  | Inv (a : ndarray)
  | Times (a : ndarray) (coeff : Z).

(** The same in cells 2, 4 and 6. *)
Record Analytics (D : Type) := Build_Analytics { dataset : D }.
Global Arguments Build_Analytics {D} dataset.
Global Arguments dataset {D} a.

Definition get_dim_counts {D} `{!ImgDataset D} (self : Analytics D) (w : world)
    : gmap dim nat * Analytics D * world :=
  let '(dims, d, w) := get_img_dims (dataset self) w in
  (Counter dims, Build_Analytics d, w).

(** [np.random.randn( *dim)] for each [dim]: the two components of the tuple
    are the two arguments. *)
Definition get_noise_masks (dims : option (pylist dim)) : result (list ndarray) :=
  match dims with
  | None => Raise (TypeError (NotIterable "NoneType"))
  | Some l => Return (map (λ dim : dim, Randn (star_args [dim.1; dim.2] [])) (items l))
  end.

(** The body of cells 3, 5 and 7.  [dataset] and [analytics.dataset] name
    one object: the state it is in after [get_dim_counts] is the state the
    second call of [get_img_dims] starts from.  The cell prints the counts. *)
Definition run_analytics {D} `{!ImgDataset D} (d : D) (w : world)
    : gmap dim nat * result (list ndarray) * D * world :=
  let analytics := Build_Analytics d in
  let '(counts, analytics, w) := get_dim_counts analytics w in
  let '(dims, d, w) := get_img_dims (dataset analytics) w in
  (counts, get_noise_masks dims, d, w).

(** Cell 8. *)
Definition arr_A : ndarray := Rand [1000; 1000]%Z.

(** [a * coeff] for a float array [a] and an int [coeff]: the int is
    converted to a float, which fails for an int that does not round to a
    finite double, that is from [2^1024 - 2^970] on in absolute value. *)
Definition float_ok (coeff : Z) : bool :=
  (Z.abs coeff <? 2 ^ 1024 - 2 ^ 970)%Z.

Definition times (a : ndarray) (coeff : Z) : result ndarray :=
  if float_ok coeff then Return (Times a coeff) else Raise OverflowError.

(** The body of a function: its statements in order, each with the outcome
    of evaluating its expression.  An expression that raises ends the body;
    a function that runs off the end of its body returns [None]. *)
Inductive stmt (X : Type) :=
  | ExprStmt (e : result X)
  | ReturnStmt (e : result X).
Global Arguments ExprStmt {X} e.
Global Arguments ReturnStmt {X} e.

Fixpoint exec {X} (body : list (stmt X)) : result (option X) :=
  match body with
  | [] => Return None
  | ExprStmt e :: body =>
      match e with
      | Raise x => Raise x
      | Return _ => exec body
      end
  | ReturnStmt e :: _ =>
      match e with
      | Raise x => Raise x
      | Return v => Return (Some v)
      end
  end.

(** The undecorated [invert_and_multiply].  [arr_A] is the draw of the
    session, which [np.linalg.inv] inverted in cell 9. *)
Definition invert_and_multiply_body (coeff : Z) : result (option ndarray) :=
  exec [ExprStmt (times (Inv arr_A) coeff)].

(** [@lru_cache()] on it.  The body has no state of its own; the log of
    the arguments it ran on is kept next to it. *)
Definition invert_and_multiply_fn (coeff : Z) (e : ())
    : result (option ndarray) * () :=
  (invert_and_multiply_body coeff, e).

Definition invert_and_multiply_cache : Type := Functools.lru Z (option ndarray).

Definition invert_and_multiply (coeff : Z)
    (c : invert_and_multiply_cache) (log : list Z * ())
    : result (option ndarray) * invert_and_multiply_cache * (list Z * ()) :=
  Functools.wrapper_exn Functools.default_maxsize
    (Functools.traced invert_and_multiply_fn) coeff c log.

(** What outlives a cell: the world, and the decorated function of cell 8
    with its cache and its log. *)
Record kernel := Kernel {
  the_world : world;
  the_cache : invert_and_multiply_cache;
  the_log : list Z * ()
}.

Inductive output :=
  | Printed (counts : gmap dim nat)
  | Displayed (info : CacheInfo.t).

Definition cell : Type := kernel → list output * result () * kernel.

(** Cells that only import or define. *)
Definition defs : cell := λ k, ([], Return (), k).

Definition analytics_cell {D} `{!ImgDataset D} (init : world → D * world) : cell :=
  λ k,
    let '(d, w) := init (the_world k) in
    let '(counts, msks, _, w) := run_analytics d w in
    ([Printed counts], _ ← msks; mret (), Kernel w (the_cache k) (the_log k)).

Definition cell3 : cell := analytics_cell (λ w, (Uncached.__init__, w)).
Definition cell5 : cell := analytics_cell (λ w, (ManualCache.__init__, w)).
Definition cell7 : cell :=
  analytics_cell (λ w, let '(self, w) := LruCached.__init__ w in
                       ((self, Functools.empty), w)).

(** [invert_and_multiply(coeff)] under [%%time]: nothing is displayed. *)
Definition call_cell (coeff : Z) : cell :=
  λ k,
    let '(r, c, log) := invert_and_multiply coeff (the_cache k) (the_log k) in
    ([], _ ← r; mret (), Kernel (the_world k) c log).

Definition cache_info_cell : cell :=
  λ k, ([Displayed (Functools.cache_info Functools.default_maxsize (the_cache k))],
        Return (), k).

Definition cache_clear_cell : cell :=
  λ k, ([], Return (),
        Kernel (the_world k) (Functools.cache_clear (the_cache k)) (the_log k)).

Definition notebook : list cell :=
  [defs; defs; cell3; defs; cell5; defs; cell7; defs;
   call_cell 2; call_cell 2; call_cell 5; cache_info_cell;
   call_cell 2; cache_clear_cell; call_cell 2].

Fixpoint run (cells : list cell) (k : kernel)
    : list (list output * result ()) * kernel :=
  match cells with
  | [] => ([], k)
  | c :: cells =>
      let '(out, r, k') := c k in
      let '(outs, k'') := run cells k' in
      ((out, r) :: outs, k'')
  end.

Definition fresh_kernel : kernel :=
  Kernel (World 0 0) Functools.empty ([], ()).

(** What the three versions are to return from [get_img_dims()]: a list
    with the three dimensions of the literal. *)
Definition the_img_dims (r : option (pylist dim)) : Prop :=
  ∃ l, r = Some l ∧ items l = [(10, 20); (10, 20); (40, 40)]%Z.

Definition the_counts : gmap dim nat :=
  {[ (10, 20)%Z := 2; (40, 40)%Z := 1 ]}.

(** [self._img_dims] is [None] or holds the list. *)
Definition manual_inv (d : ManualCache.ExtendedFolder) : Prop :=
  ManualCache._img_dims d = None ∨ the_img_dims (ManualCache._img_dims d).

(** Every value in the cache of the decorated method is the list. *)
Definition lru_inv (d : LruCached.ExtendedFolder * LruCached.method_cache) : Prop :=
  Forall (λ kv, the_img_dims kv.2) (Functools.cache d.2).

End Caching.

(** ** Cell 4 of [passing_data_around.ipynb], on any list

    [for *all_but_last, last in lst: pass]: what the two targets are bound to
    when the loop is over ([None] and no [last] while nothing is bound). *)
Module Cell4.
Definition loop (lst : list (list value)) : io (option (list value) * list value) :=
  for_in lst (λ _ item,
    '(_, all_but_last, last) ← lift (unpack_iterable 0 (Some 1) item);
    mret (all_but_last, last)) (None, []).
End Cell4.

(** ** Iterators and the list of their items *)

Section iterator_facts.
Context {S A : Type} `{!Iterator S A}.
Implicit Types (s : S) (l : list A).

Lemma next_None_remaining s : remaining s = 0 → next s = None.
Proof.
  intros H0. destruct (next s) as [[a s']|] eqn:E; [|done].
  apply next_remaining in E. lia.
Qed.

Lemma to_list_aux_fuel f1 f2 s :
  remaining s ≤ f1 → remaining s ≤ f2 →
  Iter.to_list_aux f1 s = Iter.to_list_aux f2 s.
Proof.
  revert f2 s. induction f1 as [|f1 IH]; intros [|f2] s H1 H2; simpl; try done.
  - rewrite next_None_remaining; [done|lia].
  - rewrite next_None_remaining; [done|lia].
  - destruct (next s) as [[a s']|] eqn:E; [|done].
    pose proof (next_remaining _ _ _ E). f_equal. apply IH; lia.
Qed.

Lemma to_list_unfold s :
  Iter.to_list s =
  match next s with
  | None => []
  | Some (a, s') => a :: Iter.to_list s'
  end.
Proof.
  unfold Iter.to_list at 1.
  destruct (remaining s) as [|n] eqn:Hn; simpl.
  - by rewrite next_None_remaining.
  - destruct (next s) as [[a s']|] eqn:E; [|done].
    pose proof (next_remaining _ _ _ E). f_equal.
    apply to_list_aux_fuel; lia.
Qed.

Lemma to_list_nil s : Iter.to_list s = [] ↔ next s = None.
Proof.
  rewrite to_list_unfold. destruct (next s) as [[a s']|]; naive_solver.
Qed.

(** [n] calls of [__next__] hand out the first [n] items and leave an
    iterator over the others, or fail when there are fewer than [n]. *)
Lemma take_next_spec n s :
  match Iter.take_next n s with
  | (front, Some s') =>
      n ≤ length (Iter.to_list s) ∧ front = take n (Iter.to_list s) ∧
      Iter.to_list s' = drop n (Iter.to_list s)
  | (front, None) =>
      length (Iter.to_list s) < n ∧ front = Iter.to_list s
  end.
Proof.
  revert s. induction n as [|n IH]; intros s; simpl.
  - split; [lia|]. by rewrite take_0, drop_0.
  - rewrite (to_list_unfold s).
    destruct (next s) as [[a s']|] eqn:E; simpl; [|split; [lia|done]].
    specialize (IH s'). destruct (Iter.take_next n s') as [front [s''|]].
    + destruct IH as (? & -> & ?). split; [lia|done].
    + destruct IH as (? & ->). split; [lia|done].
Qed.
End iterator_facts.

Lemma list_to_list {A} (l : list A) : Iter.to_list l = l.
Proof.
  induction l as [|a l IH]; [done|].
  rewrite to_list_unfold. simpl. by rewrite IH.
Qed.

(** Unpacking looks at an iterable only through its items. *)
Lemma unpack_iterable_items {S A} `{!Iterator S A} argcnt argcntafter (v : S) :
  unpack_iterable argcnt argcntafter v =
  unpack_iterable argcnt argcntafter (Iter.to_list v).
Proof.
  unfold unpack_iterable.
  pose proof (take_next_spec argcnt v) as Hv.
  pose proof (take_next_spec argcnt (Iter.to_list v)) as Hl.
  rewrite list_to_list in Hl.
  destruct (Iter.take_next argcnt v) as [f1 [s1|]],
    (Iter.take_next argcnt (Iter.to_list v)) as [f2 [s2|]].
  - destruct Hv as (_ & -> & Hs1), Hl as (_ & -> & Hs2).
    rewrite list_to_list in Hs2. subst s2.
    destruct argcntafter as [after|].
    + by rewrite Hs1, list_to_list.
    + destruct (next s1) as [[a s1']|] eqn:E1.
      * rewrite to_list_unfold, E1 in Hs1.
        rewrite <- Hs1. done.
      * apply to_list_nil in E1. rewrite E1 in Hs1. by rewrite <- Hs1.
  - destruct Hv as (? & _), Hl as (? & _). lia.
  - destruct Hv as (? & _), Hl as (? & _). lia.
  - destruct Hv as (_ & ->), Hl as (_ & ->). done.
Qed.

(** On a list the routine is a split of the list. *)
Lemma unpack_iterable_star {A} before after (l : list A) :
  before + after ≤ length l →
  unpack_iterable before (Some after) l =
  Return (take before l,
          Some (take (length l - before - after) (drop before l)),
          drop (length l - after) l).
Proof.
  intros Hlen. unfold unpack_iterable.
  pose proof (take_next_spec before l) as Hl. rewrite list_to_list in Hl.
  destruct (Iter.take_next before l) as [front [s|]].
  - destruct Hl as (_ & -> & Hs). rewrite list_to_list in Hs. subst s.
    rewrite list_to_list, length_drop.
    destruct (Nat.ltb_spec (length l - before) after); [lia|].
    rewrite drop_drop. do 3 f_equal. lia.
  - destruct Hl as (? & _). lia.
Qed.

Lemma for_in_aux_items {S A B} `{!Iterator S A} fuel (it : S) (body : B → A → io B) b out :
  remaining it ≤ fuel →
  for_in_aux fuel it body b out = for_list (Iter.to_list it) body b out.
Proof.
  revert it b out. induction fuel as [|fuel IH]; intros it b out Hfuel; simpl.
  - rewrite to_list_unfold, next_None_remaining; [done|lia].
  - rewrite (to_list_unfold it).
    destruct (next it) as [[a it']|] eqn:E; [|done]. simpl.
    unfold mbind, io_bind. destruct (body b a out) as [out' [e|b']]; [done|].
    apply IH. apply next_remaining in E. lia.
Qed.

Lemma for_in_items {S A B} `{!Iterator S A} (it : S) (body : B → A → io B) b out :
  for_in it body b out = for_list (Iter.to_list it) body b out.
Proof. by apply for_in_aux_items. Qed.

Lemma for_list_ext {A B} (P : A → Prop) (l : list A) (f g : B → A → io B) b out :
  Forall P l → (∀ b a out, P a → f b a out = g b a out) →
  for_list l f b out = for_list l g b out.
Proof.
  intros Hl Hfg. revert b out.
  induction Hl as [|a l Ha Hl IH]; intros b out; simpl; [done|].
  unfold mbind, io_bind. rewrite (Hfg _ _ _ Ha).
  destruct (g b a out) as [out' [e|b']]; [done|]. apply IH.
Qed.

(** The tuples of a three-way [zip] have three components. *)
Lemma zip3_items {S A} `{!Iterator S A} (a b c : S) :
  Forall (λ t : list A, length t = 3) (Iter.to_list (Zip [a; b; c])).
Proof.
  remember (remaining (Zip [a; b; c])) as n eqn:Hn.
  revert a b c Hn. induction (lt_wf n) as [n _ IH]; intros a b c ->.
  rewrite to_list_unfold.
  destruct (next (Zip [a; b; c])) as [[t z]|] eqn:E; [|done].
  pose proof (next_remaining _ _ _ E) as Hlt.
  simpl in E. unfold zip_next in E. simpl in E.
  destruct (next a) as [[xa a']|]; [|done].
  destruct (next b) as [[xb b']|]; [|done].
  destruct (next c) as [[xc c']|]; [|done].
  injection E as <- <-. constructor; [done|].
  eapply IH; [exact Hlt|done].
Qed.

(** ** Extended unpacking *)

Section unpack_lists.
Context {A : Type}.
Implicit Types (s : list A).

Lemma last_item s :
  1 ≤ length s →
  ∃ last, s !! (length s - 1) = Some last ∧ drop (length s - 1) s = [last].
Proof.
  intros Hlen.
  destruct (lookup_lt_is_Some_2 s (length s - 1)) as [last Hlast]; [lia|].
  exists last. split; [done|].
  rewrite (drop_S _ _ _ Hlast), drop_ge; [done|lia].
Qed.

Lemma first_item s :
  1 ≤ length s → ∃ first, s !! 0 = Some first ∧ take 1 s = [first].
Proof. destruct s as [|a s]; simpl; [lia|]. intros _. by exists a. Qed.

(** [*pre, last = s] *)
Lemma unpack_pre_last s :
  1 ≤ length s →
  ∃ last, s !! (length s - 1) = Some last ∧
    unpack_iterable 0 (Some 1) s =
    Return ([], Some (take (length s - 1) s), [last]).
Proof.
  intros Hlen. destruct (last_item s Hlen) as (last & Hlast & Hdrop).
  exists last. split; [done|].
  rewrite unpack_iterable_star by (simpl; lia).
  rewrite take_0, drop_0, Hdrop. by rewrite Nat.sub_0_r.
Qed.

(** [first, *mid, last = s] *)
Lemma unpack_first_mid_last s :
  2 ≤ length s →
  ∃ first last, s !! 0 = Some first ∧ s !! (length s - 1) = Some last ∧
    unpack_iterable 1 (Some 1) s =
    Return ([first], Some (take (length s - 2) (drop 1 s)), [last]).
Proof.
  intros Hlen.
  destruct (last_item s) as (last & Hlast & Hdrop); [lia|].
  destruct (first_item s) as (first & Hfirst & Htake); [lia|].
  exists first, last. do 2 (split; [done|]).
  rewrite unpack_iterable_star by (simpl; lia).
  rewrite Htake, Hdrop. by replace (length s - 1 - 1) with (length s - 2) by lia.
Qed.

(** The items of [mid] are the items 1 to [length s - 2] of [s]. *)
Lemma mid_items s i :
  i < length s - 2 → take (length s - 2) (drop 1 s) !! i = s !! (1 + i).
Proof. intros Hi. by rewrite lookup_take_lt, lookup_drop. Qed.

Lemma mid_length s : length (take (length s - 2) (drop 1 s)) = length s - 2.
Proof. rewrite length_take, length_drop. lia. Qed.
End unpack_lists.

(** C6: for a sequence [s] of length at least 1, [*pre, last = s] binds
    [last] to the final element and [pre] to the list of the elements before
    it; for a sequence of length at least 2, [first, *mid, last = s] binds
    [first] to element 0, [last] to the final element and [mid] to the list
    of the elements 1 to [length s - 2]. *)
Theorem unpack_prefix_and_last {A} (s : list A) :
  (1 ≤ length s →
   ∃ last, s !! (length s - 1) = Some last ∧
     unpack_iterable 0 (Some 1) s =
     Return ([], Some (take (length s - 1) s), [last])) ∧
  (2 ≤ length s →
   ∃ first mid last,
     unpack_iterable 1 (Some 1) s = Return ([first], Some mid, [last]) ∧
     s !! 0 = Some first ∧ s !! (length s - 1) = Some last ∧
     length mid = length s - 2 ∧
     ∀ i, i < length s - 2 → mid !! i = s !! (1 + i)).
Proof.
  split; intros Hlen.
  - by apply unpack_pre_last.
  - destruct (unpack_first_mid_last s Hlen) as (first & last & H0 & Hn & Hu).
    exists first, (take (length s - 2) (drop 1 s)), last.
    split_and!; [done..| apply mid_length | apply mid_items].
Qed.

Lemma unpack_prefix_and_last_witness :
  let s := [Str "first"; Int 0; Int 1; Int 2; Str "last"] in
  (1 ≤ length s ∧ 2 ≤ length s) ∧
  (∃ last, s !! (length s - 1) = Some last ∧
     unpack_iterable 0 (Some 1) s =
     Return ([], Some (take (length s - 1) s), [last])) ∧
  (∃ first mid last,
     unpack_iterable 1 (Some 1) s = Return ([first], Some mid, [last]) ∧
     s !! 0 = Some first ∧ s !! (length s - 1) = Some last ∧
     length mid = length s - 2 ∧
     ∀ i, i < length s - 2 → mid !! i = s !! (1 + i)).
Proof.
  intros s. split; [simpl; lia|].
  split; [apply (unpack_prefix_and_last s) | apply (unpack_prefix_and_last s)];
    simpl; lia.
Defined.

(** With a starred target, what the routine returns holds a list for it. *)
Lemma unpack_iterable_binds_list {S A} `{!Iterator S A} before after (g : S) r :
  unpack_iterable before (Some after) g = Return r → is_Some r.1.2.
Proof.
  unfold unpack_iterable.
  destruct (Iter.take_next before g) as [front [it|]]; [|done].
  case_match; [done|]. intros [= <-]. by eexists.
Qed.

(** C10: extended unpacking works on any finite iterable and binds the
    starred target to a list made from its items: [frst, *mid, last = g]
    on an iterable yielding [k >= 2] items binds [mid] to the list of the
    middle [k - 2] items, and [*everything, = it] binds [everything] to the
    list of all items, [[0; 1; 2; 3; 4]] for [range(5)]. *)
Theorem unpack_any_iterable {S A} `{!Iterator S A} (g : S) :
  let l := Iter.to_list g in
  (2 ≤ length l →
   ∃ first last, l !! 0 = Some first ∧ l !! (length l - 1) = Some last ∧
     unpack_iterable 1 (Some 1) g =
     Return ([first], Some (take (length l - 2) (drop 1 l)), [last])) ∧
  unpack_iterable 0 (Some 0) g = Return ([], Some l, []) ∧
  (∀ before after r,
     unpack_iterable before (Some after) g = Return r → is_Some r.1.2) ∧
  unpack_iterable 0 (Some 0) (Range 0 5) = Return ([], Some [0; 1; 2; 3; 4]%Z, []).
Proof.
  intros l. split_and!.
  - intros Hlen. rewrite unpack_iterable_items. by apply unpack_first_mid_last.
  - rewrite unpack_iterable_items, unpack_iterable_star by (simpl; lia).
    fold l. rewrite !Nat.sub_0_r, take_0, drop_0, drop_all.
    by rewrite take_ge.
  - intros before after r. apply unpack_iterable_binds_list.
  - by vm_compute.
Qed.

Lemma unpack_any_iterable_witness :
  let g := Generator (λ item : value, item)
             [Str "first"; Int 0; Int 1; Int 2; Str "last"] in
  2 ≤ length (Iter.to_list g) ∧
  unpack_iterable 1 (Some 1) g =
  Return ([Str "first"], Some [Int 0; Int 1; Int 2], [Str "last"]).
Proof.
  intros g. split; [vm_compute; lia|].
  destruct (proj1 (unpack_any_iterable g)) as (first & last & H0 & Hn & ->).
  - vm_compute. lia.
  - vm_compute in H0, Hn. by injection H0 as <-; injection Hn as <-.
Defined.

(** ** The training loops of [passing_data_around.ipynb] *)

Section training_loops.
Import PassingDataAround.

Lemma body_starx_y_triple (model : list value → io unit) cont idx y out :
  body_starx_y model [cont; idx; y] out = model [cont; idx; y] out.
Proof. reflexivity. Qed.

Lemma body_x_y_triple (model : list value → io unit) a b c out :
  body_x_y model [a; b; c] out = (out, Raise (ValueError (TooMany 2))).
Proof. reflexivity. Qed.

Lemma loop_starx_y_triples {S} `{!Iterator S (list value)}
    (model : list value → io unit) (train_set : S) out :
  Forall (λ batch, length batch = 3) (Iter.to_list train_set) →
  loop_starx_y model train_set out = loop_cont_idx_y model train_set out.
Proof.
  intros Hall. unfold loop_starx_y, loop_cont_idx_y.
  rewrite !for_in_items.
  apply for_list_ext with (P := λ batch, length batch = 3); [done|].
  intros [] [|cont [|idx [|y [|??]]]] out'; simpl; try done.
Qed.
End training_loops.

(** C8: for every triple [(cont, idx, y)], binding it with [*x, y] and
    calling [em( *x, y)] passes the three components in their order, as the
    call [em(cont, idx, y)] does; so the loop of cell 3 over a three-way
    [zip] is the loop that names the three components. *)
Theorem star_unpack_call_roundtrip :
  (∀ (model : list value → io unit) cont idx y out,
     PassingDataAround.body_starx_y model [cont; idx; y] out =
     model [cont; idx; y] out) ∧
  (∀ cont idx y out,
     PassingDataAround.body_starx_y PassingDataAround.em [cont; idx; y] out =
     PassingDataAround.EmbeddingModel.forward cont idx y out) ∧
  (∀ (a b c : list value) out,
     PassingDataAround.loop_starx_y PassingDataAround.em (Zip [a; b; c]) out =
     PassingDataAround.loop_cont_idx_y PassingDataAround.em (Zip [a; b; c]) out).
Proof.
  split_and!.
  - apply body_starx_y_triple.
  - intros. by rewrite body_starx_y_triple.
  - intros. apply loop_starx_y_triples, zip3_items.
Qed.

(** ** The cache of [lru_cache] *)

Section lru_facts.
Import Functools.
Context {K V E : Type} `{Countable K}.
Variable maxsize : nat.
Variable user_function : K → E → V * E.
Implicit Types (c : list (K * V)) (st : lru K V) (k key : K) (v : V) (e : E).

Lemma cache_get_Some key c v : cache_get key c = Some v → (key, v) ∈ c.
Proof.
  induction c as [|[k' v'] c IH]; simpl; [done|].
  case_decide as Hk; [intros [= ->]; subst; left | right; auto].
Qed.

Lemma cache_get_None key c : cache_get key c = None ↔ key ∉ c.*1.
Proof.
  induction c as [|[k' v'] c IH]; simpl.
  - split; [intros _; apply not_elem_of_nil | done].
  - rewrite not_elem_of_cons. case_decide as Hk; [|tauto].
    split; [done|]. intros [Hne _]. by destruct Hne.
Qed.

Lemma cache_get_elem_of key c v :
  NoDup c.*1 → (key, v) ∈ c → cache_get key c = Some v.
Proof.
  induction c as [|[k' v'] c IH]; simpl; intros Hnd Hin.
  - by apply elem_of_nil in Hin.
  - apply NoDup_cons in Hnd as [Hk' Hnd].
    apply elem_of_cons in Hin as [[= <- <-]|Hin]; [by rewrite decide_True|].
    rewrite decide_False; [by apply IH|].
    intros <-. apply Hk'. apply list_elem_of_fmap. by exists (key, v).
Qed.

Lemma unlink_absent key c : key ∉ c.*1 → unlink key c = c.
Proof.
  induction c as [|[k' v'] c IH]; [done|]. simpl.
  rewrite not_elem_of_cons. intros [Hne Hnot]. unfold unlink in *.
  rewrite filter_cons_True by (simpl; congruence). by rewrite IH.
Qed.

Lemma unlink_subseteq key c kv : kv ∈ unlink key c → kv ∈ c.
Proof. unfold unlink. rewrite list_elem_of_filter. tauto. Qed.

(** A hit moves the entry to the recent end and changes nothing else. *)
Lemma unlink_relink key c v :
  NoDup c.*1 → cache_get key c = Some v → unlink key c ++ [(key, v)] ≡ₚ c.
Proof.
  induction c as [|[k' v'] c IH]; simpl; [done|]. intros Hnd Hget.
  apply NoDup_cons in Hnd as [Hk' Hnd]. unfold unlink in *.
  case_decide as Hk.
  - injection Hget as ->. subst k'.
    rewrite filter_cons_False by (simpl; tauto).
    fold (unlink key c). rewrite unlink_absent by done.
    by rewrite Permutation_app_comm.
  - rewrite filter_cons_True by (simpl; congruence).
    simpl. f_equiv. by apply IH.
Qed.

Lemma wf_empty : maxsize ≠ 0 → wf maxsize (empty : lru K V).
Proof.
  intros Hm. split; simpl; [constructor|].
  symmetry. apply bool_decide_eq_false. lia.
Qed.

(** What a call does in a cache with room for its key. *)
Lemma wrapper_fits key keys st e :
  maxsize ≠ 0 → wf maxsize st → fits maxsize st (key :: keys) →
  ∃ v st' e',
    wrapper maxsize user_function key st e = (v, st', e') ∧
    wf maxsize st' ∧ fits maxsize st' keys ∧
    (key, v) ∈ cache st' ∧
    (∀ kv, kv ∈ cache st → kv ∈ cache st') ∧
    (∀ k, k ∈ ((cache st').*1) ↔ k = key ∨ k ∈ ((cache st).*1)) ∧
    ((key ∈ (cache st).*1 ∧ e' = e ∧
      hits st' = Datatypes.S (hits st) ∧ misses st' = misses st) ∨
     ((key ∉ (cache st).*1) ∧ user_function key e = (v, e') ∧
      hits st' = hits st ∧ misses st' = Datatypes.S (misses st))).
Proof.
  intros Hm [Hnd Hfull] Hfits. unfold wrapper. rewrite decide_False by done.
  destruct (cache_get key (cache st)) as [v|] eqn:Hget.
  - (* hit *)
    pose proof (unlink_relink _ _ _ Hnd Hget) as Hperm.
    pose proof (cache_get_Some _ _ _ Hget) as Hin.
    assert (key ∈ (cache st).*1) as Hkey.
    { apply list_elem_of_fmap. by exists (key, v). }
    eexists _, _, _. split; [done|]. simpl. split_and!.
    + split; simpl; [by rewrite Hperm|].
      by rewrite (Permutation_length Hperm).
    + unfold fits in *. simpl. rewrite Hperm.
      etrans; [|exact Hfits]. apply subseteq_size. set_solver.
    + set_solver.
    + intros kv. by rewrite Hperm.
    + intros k. rewrite Hperm. set_solver.
    + left. done.
  - (* miss *)
    apply cache_get_None in Hget.
    destruct (user_function key e) as [v e'] eqn:Huf.
    assert (length (cache st) < maxsize) as Hroom.
    { unfold fits in Hfits.
      assert (size ({[key]} ∪ list_to_set (cache st).*1 : gset K) =
              Datatypes.S (length (cache st))) as Hsize.
      { rewrite size_union by set_solver.
        by rewrite size_singleton, size_list_to_set, length_fmap. }
      assert (size ({[key]} ∪ list_to_set (cache st).*1 : gset K) ≤
              size (list_to_set ((cache st).*1 ++ key :: keys) : gset K));
        [|lia].
      apply subseteq_size. set_solver. }
    rewrite Hfull, bool_decide_eq_false_2 by lia.
    eexists _, _, _. split; [done|]. simpl. split_and!.
    + split; simpl; [|done].
      rewrite fmap_app. apply NoDup_app. split_and!; [done| |apply NoDup_singleton].
      intros k Hk Hk'. simpl in Hk'. apply list_elem_of_singleton in Hk'. by subst.
    + unfold fits in *. simpl. rewrite fmap_app. simpl.
      etrans; [|exact Hfits]. apply subseteq_size. set_solver.
    + set_solver.
    + set_solver.
    + intros k. rewrite fmap_app. set_solver.
    + right. done.
Qed.
Lemma cache_functional c key v1 v2 :
  NoDup c.*1 → (key, v1) ∈ c → (key, v2) ∈ c → v1 = v2.
Proof.
  intros Hnd H1 H2.
  apply (cache_get_elem_of _ _ _ Hnd) in H1, H2. congruence.
Qed.

Lemma seen_again_equiv (seen1 seen2 keys : list K) :
  (∀ k, k ∈ seen1 ↔ k ∈ seen2) →
  Memo.seen_again seen1 keys = Memo.seen_again seen2 keys.
Proof.
  revert seen1 seen2. induction keys as [|key keys IH]; intros s1 s2 Heq; simpl; [done|].
  rewrite (IH (key :: s1) (key :: s2)) by (intros k; rewrite !elem_of_cons, Heq; done).
  destruct (decide (key ∈ s1)), (decide (key ∈ s2)); naive_solver.
Qed.

Lemma first_time_equiv (seen1 seen2 keys : list K) :
  (∀ k, k ∈ seen1 ↔ k ∈ seen2) →
  Memo.first_time seen1 keys = Memo.first_time seen2 keys.
Proof.
  revert seen1 seen2. induction keys as [|key keys IH]; intros s1 s2 Heq; simpl; [done|].
  rewrite (IH (key :: s1) (key :: s2)) by (intros k; rewrite !elem_of_cons, Heq; done).
  destruct (decide (key ∈ s1)), (decide (key ∈ s2)); naive_solver.
Qed.

(** A sequence of calls whose arguments all fit in the cache. *)
Lemma calls_fits keys : ∀ st e,
  maxsize ≠ 0 → wf maxsize st → fits maxsize st keys →
  ∃ results st' e',
    calls maxsize user_function keys st e = (results, st', e') ∧
    wf maxsize st' ∧ length results = length keys ∧
    (∀ kv, kv ∈ cache st → kv ∈ cache st') ∧
    (∀ k, k ∈ ((cache st').*1) ↔ k ∈ keys ∨ k ∈ ((cache st).*1)) ∧
    (∀ k v j, (k, v) ∈ cache st → keys !! j = Some k → results !! j = Some v) ∧
    (∀ i j k, keys !! i = Some k → keys !! j = Some k →
              results !! i = results !! j) ∧
    hits st' = hits st + Memo.seen_again (cache st).*1 keys ∧
    misses st' = misses st + Memo.first_time (cache st).*1 keys.
Proof.
  induction keys as [|key keys IH]; intros st e Hm Hwf Hfits.
  { exists [], st, e. simpl. split_and!; try done; try lia. set_solver. }
  destruct (wrapper_fits key keys st e Hm Hwf Hfits)
    as (v & st1 & e1 & Hw & Hwf1 & Hfits1 & Hkv & Hmono & Hkeys & Hcase).
  destruct (IH st1 e1 Hm Hwf1 Hfits1)
    as (rs & st' & e' & Hc & Hwf' & Hlen & Hmono' & Hkeys' & Hcached & Hsame
        & Hhits & Hmisses).
  exists (v :: rs), st', e'. simpl. rewrite Hw, Hc.
  assert (∀ k, k ∈ (cache st1).*1 ↔ k ∈ key :: (cache st).*1) as Hseen.
  { intros k. rewrite Hkeys, elem_of_cons. done. }
  split_and!.
  - done.
  - done.
  - simpl. lia.
  - auto.
  - intros k. rewrite Hkeys', Hkeys, elem_of_cons. tauto.
  - intros k v0 [|j] Hin Hj; simpl in *.
    + injection Hj as <-. f_equal.
      eapply cache_functional; [apply Hwf1|done|by apply Hmono].
    + eapply Hcached; [by apply Hmono|done].
  - intros [|i] [|j] k Hi Hj; simpl in *.
    + done.
    + injection Hi as <-. symmetry. by eapply Hcached.
    + injection Hj as <-. by eapply Hcached.
    + by eapply Hsame.
  - rewrite Hhits, (seen_again_equiv _ _ _ Hseen).
    destruct Hcase as [(Hin & _ & -> & _)|(Hnot & _ & -> & _)].
    + rewrite decide_True by done. lia.
    + rewrite decide_False by done. lia.
  - rewrite Hmisses, (first_time_equiv _ _ _ Hseen).
    destruct Hcase as [(Hin & _ & _ & ->)|(Hnot & _ & _ & ->)].
    + rewrite decide_True by done. lia.
    + rewrite decide_False by done. lia.
Qed.
(** Whatever the size of the cache: a call returns a cached value or
    the value the function computes, and caches nothing else. *)
Lemma wrapper_result key st e v st' e' :
  wrapper maxsize user_function key st e = (v, st', e') →
  ((key, v) ∈ cache st ∨ v = (user_function key e).1) ∧
  ∀ kv, kv ∈ cache st' → kv ∈ cache st ∨ kv = (key, v).
Proof.
  unfold wrapper. case_decide as Hm.
  { destruct (user_function key e) as [r e1]. intros [= <- <- <-]. simpl. auto. }
  destruct (cache_get key (cache st)) as [r|] eqn:Hget.
  - intros [= <- <- <-]. simpl. split; [left; by apply cache_get_Some|].
    intros kv [Hin|Hin%list_elem_of_singleton]%elem_of_app; [left|by right].
    by eapply unlink_subseteq.
  - destruct (user_function key e) as [r e1]. simpl.
    destruct (full st); intros [= <- <- <-]; simpl; (split; [by right|]).
    + intros kv [Hin|Hin%list_elem_of_singleton]%elem_of_app; [left|by right].
      destruct (cache st); simpl in *; [done|by right].
    + intros kv [Hin|Hin%list_elem_of_singleton]%elem_of_app; [by left|by right].
Qed.

Lemma calls_values (Q : V → Prop) :
  (∀ k e, Q (user_function k e).1) →
  ∀ keys st e, Forall (λ kv, Q kv.2) (cache st) →
    Forall Q (calls maxsize user_function keys st e).1.1 ∧
    Forall (λ kv, Q kv.2) (calls maxsize user_function keys st e).1.2.(cache).
Proof.
  intros Huf. induction keys as [|key keys IH]; intros st e Hst; simpl; [by split|].
  destruct (wrapper maxsize user_function key st e) as [[v st1] e1] eqn:Hw.
  destruct (wrapper_result _ _ _ _ _ _ Hw) as [Hv Hst1].
  assert (Q v) as HQ.
  { destruct Hv as [Hin| ->]; [|done].
    by apply (proj1 (Forall_forall _ _) Hst _ Hin). }
  assert (Forall (λ kv, Q kv.2) (cache st1)) as Hall.
  { apply Forall_forall. intros kv [Hin| ->]%Hst1; [|done].
    by apply (proj1 (Forall_forall _ _) Hst _ Hin). }
  destruct (IH st1 e1 Hall) as [Hrs Hst'].
  destruct (calls maxsize user_function keys st1 e1) as [[rs st'] e'].
  simpl in *. split; [by constructor|done].
Qed.
End lru_facts.

Section lru_traced.
Import Functools.
Context {K V E : Type} `{Countable K}.
Variable maxsize : nat.
Variable user_function : K → E → V * E.
Implicit Types (st : lru K V) (e : E) (log : list K).

End lru_traced.

(** ** The memoized function *)

Section memo_facts.
Import Functools.
Context {K V E : Type} `{Countable K}.
Variable user_function : K → E → V * E.
Implicit Types (st : lru K V) (e : E) (keys : list K).






End memo_facts.







(** C4: [cache_clear()] leaves the cache as it is when the function has
    just been decorated; a call after it runs the body, also for an argument
    that was cached before, returns what the body returns, and is the call a
    fresh cache would see. *)
Theorem cache_clear_is_fresh {K V E} `{Countable K}
    (maxsize : nat) (user_function : K → E → V * E)
    (st : Functools.lru K V) (key : K) (log : list K) (e : E) :
  Functools.cache_clear st = Functools.empty ∧
  Functools.cache_info maxsize (Functools.cache_clear st) =
    CacheInfo.Make 0 0 maxsize 0 ∧
  Functools.wrapper maxsize (Functools.traced user_function) key
    (Functools.cache_clear st) (log, e) =
  Functools.wrapper maxsize (Functools.traced user_function) key
    Functools.empty (log, e) ∧
  (Functools.wrapper maxsize (Functools.traced user_function) key
     (Functools.cache_clear st) (log, e)).1.1 = (user_function key e).1 ∧
  (Functools.wrapper maxsize (Functools.traced user_function) key
     (Functools.cache_clear st) (log, e)).2 =
    (log ++ [key], (user_function key e).2).
Proof.
  split_and!; try done.
  - unfold Functools.wrapper, Functools.traced. simpl.
    destruct (user_function key e) as [v e']. by case_decide.
  - unfold Functools.wrapper, Functools.traced. simpl.
    destruct (user_function key e) as [v e']. by case_decide.
Qed.

(** ** The wrapper around a function that may raise *)

Section lru_raising_facts.
Import Functools.
Context {K V E : Type} `{Countable K}.
Variable maxsize : nat.
Implicit Types (st : lru K V) (key : K) (e : E).

(** Around a function that returns, it is [wrapper]. *)
Lemma wrapper_exn_returning (f : K → E → V * E) key st e :
  wrapper_exn maxsize (λ k e, let '(v, e') := f k e in (Return v, e')) key st e =
  let '(v, st', e') := wrapper maxsize f key st e in (Return v, st', e').
Proof.
  unfold wrapper_exn, wrapper. case_decide.
  - by destruct (f key e).
  - destruct (cache_get key (cache st)); [done|].
    destruct (f key e). by destruct (full st).
Qed.

Variable user_function : K → E → result V * E.



End lru_raising_facts.





(** ** The three [ExtendedFolder]s *)

Section datasets.
Import Caching.

Lemma Counter_the_img_dims r : the_img_dims r → Counter r = the_counts.
Proof. intros (l & -> & Hl). unfold Counter. rewrite Hl. by vm_compute. Qed.

(** A dataset whose method keeps an invariant and returns the list. *)
Section invariant.
Context {D : Type} `{!ImgDataset D}.
Variable I : D → Prop.
Hypothesis step : ∀ d w, I d →
  the_img_dims (get_img_dims d w).1.1 ∧ I (get_img_dims d w).1.2.

Lemma get_img_dims_n_invariant n d w :
  I d →
  Forall the_img_dims (get_img_dims_n n d w).1.1 ∧
  I (get_img_dims_n n d w).1.2.
Proof.
  revert d w. induction n as [|n IH]; intros d w Hd; simpl; [by split|].
  destruct (step d w Hd) as [Hr Hd'].
  destruct (get_img_dims d w) as [[r d'] w']. simpl in *.
  destruct (IH d' w' Hd') as [Hrs Hd''].
  destruct (get_img_dims_n n d' w') as [[rs d''] w'']. simpl in *.
  split; [by constructor|done].
Qed.

Lemma get_dim_counts_invariant d w :
  I d → (get_dim_counts (Build_Analytics d) w).1.1 = the_counts.
Proof.
  intros Hd. unfold get_dim_counts. simpl.
  destruct (step d w Hd) as [Hr _].
  destruct (get_img_dims d w) as [[r d'] w']. simpl in *.
  by apply Counter_the_img_dims.
Qed.
End invariant.

Lemma uncached_step (d : Uncached.ExtendedFolder) w :
  True → the_img_dims (get_img_dims d w).1.1 ∧ True.
Proof. intros _. split; [|done]. by eexists. Qed.

Lemma manual_step d w :
  manual_inv d →
  the_img_dims (get_img_dims d w).1.1 ∧ manual_inv (get_img_dims d w).1.2.
Proof.
  unfold get_img_dims, ManualCache.dataset, ManualCache.get_img_dims_.
  destruct d as [[l|]]; intros [[=]|Hinv]; simpl.
  - destruct Hinv as (l' & [= <-] & Hl). unfold truthy. simpl. rewrite Hl. simpl.
    split; [|right]; by exists l.
  - split; [|right]; by eexists.
  - destruct Hinv as (l' & [=] & _).
Qed.

Lemma lru_step d w :
  lru_inv d →
  the_img_dims (get_img_dims d w).1.1 ∧ lru_inv (get_img_dims d w).1.2.
Proof.
  destruct d as [self c]. unfold lru_inv. simpl. intros Hinv.
  unfold get_img_dims, LruCached.dataset, LruCached.get_img_dims_.
  destruct (Functools.wrapper _ _ self c w) as [[r c'] w'] eqn:Hw. simpl.
  destruct (wrapper_result _ _ _ _ _ _ _ _ Hw) as [Hr Hc'].
  assert (the_img_dims r) as Hlist.
  { destruct Hr as [Hin| ->]; [|by eexists].
    by apply (proj1 (Forall_forall _ _) Hinv _ Hin). }
  split; [done|]. apply Forall_forall. intros kv [Hin| ->]%Hc'; [|done].
  by apply (proj1 (Forall_forall _ _) Hinv _ Hin).
Qed.
End datasets.

(** C5: in the three versions of [ExtendedFolder], every call of
    [get_img_dims()] returns a list with the three tuples
    [[(10, 20); (10, 20); (40, 40)]], however many calls came before; so
    [Analytics.get_dim_counts()] always counts [(10, 20)] twice and
    [(40, 40)] once.  For the decorated method this holds for any instances
    sharing its cache. *)
Theorem get_img_dims_returns_the_list (n : nat) (w w' : Caching.world) :
  (Forall Caching.the_img_dims
     (Caching.get_img_dims_n n Caching.Uncached.__init__ w).1.1 ∧
   (Caching.get_dim_counts
      (Caching.Build_Analytics
         (Caching.get_img_dims_n n Caching.Uncached.__init__ w).1.2) w').1.1
   = Caching.the_counts) ∧
  (Forall Caching.the_img_dims
     (Caching.get_img_dims_n n Caching.ManualCache.__init__ w).1.1 ∧
   (Caching.get_dim_counts
      (Caching.Build_Analytics
         (Caching.get_img_dims_n n Caching.ManualCache.__init__ w).1.2) w').1.1
   = Caching.the_counts) ∧
  (∀ self : Caching.LruCached.ExtendedFolder,
     Forall Caching.the_img_dims
       (Caching.get_img_dims_n n (self, Functools.empty) w).1.1 ∧
     (Caching.get_dim_counts
        (Caching.Build_Analytics
           (Caching.get_img_dims_n n (self, Functools.empty) w).1.2) w').1.1
     = Caching.the_counts) ∧
  (∀ selves : list Caching.LruCached.ExtendedFolder,
     Forall Caching.the_img_dims
       (Functools.calls Functools.default_maxsize
          Caching.LruCached.get_img_dims_body selves Functools.empty w).1.1) ∧
  Caching.the_counts !! (10, 20)%Z = Some 2 ∧ Caching.the_counts !! (40, 40)%Z = Some 1 ∧
  size Caching.the_counts = 2.
Proof.
  split_and!.
  - by apply (get_img_dims_n_invariant (λ _, True) uncached_step n).
  - apply (get_dim_counts_invariant (λ _, True) uncached_step).
    by apply (get_img_dims_n_invariant (λ _, True) uncached_step n).
  - apply (get_img_dims_n_invariant Caching.manual_inv manual_step n). by left.
  - apply (get_dim_counts_invariant Caching.manual_inv manual_step).
    apply (get_img_dims_n_invariant Caching.manual_inv manual_step n). by left.
  - intros self.
    destruct (get_img_dims_n_invariant Caching.lru_inv lru_step n
                (self, Functools.empty) w) as [Hrs Hinv]; [constructor|].
    split; [done|]. by apply (get_dim_counts_invariant Caching.lru_inv lru_step).
  - intros selves.
    apply (calls_values Functools.default_maxsize
             Caching.LruCached.get_img_dims_body Caching.the_img_dims).
    + intros k e. by eexists.
    + constructor.
  - by vm_compute.
  - by vm_compute.
  - by vm_compute.
Qed.

Section manual_cache.
Import Caching.

(** Once [self._img_dims] holds the list, a call returns it and changes
    nothing. *)
Lemma manual_hit (l : pylist dim) w :
  items l = img_dims_literal →
  get_img_dims (ManualCache.Build (Some l)) w =
  (Some l, ManualCache.Build (Some l), w).
Proof.
  intros Hl.
  unfold get_img_dims, ManualCache.dataset, ManualCache.get_img_dims_, truthy.
  simpl. by rewrite Hl.
Qed.

Lemma manual_cached n (l : pylist dim) w :
  items l = img_dims_literal →
  get_img_dims_n n (ManualCache.Build (Some l)) w =
  (replicate n (Some l), ManualCache.Build (Some l), w).
Proof.
  intros Hl. induction n as [|n IH]; [done|].
  cbn [get_img_dims_n]. by rewrite manual_hit, IH.
Qed.

(** The first call sleeps, makes the list and stores it. *)
Lemma manual_first n w :
  get_img_dims_n (Datatypes.S n) ManualCache.__init__ w =
  let l := PyList (next_id w) img_dims_literal in
  (replicate (Datatypes.S n) (Some l), ManualCache.Build (Some l),
   World (clock w + 5) (Datatypes.S (next_id w))).
Proof.
  cbn [get_img_dims_n].
  change (get_img_dims ManualCache.__init__ w) with
    (Some (PyList (next_id w) img_dims_literal),
     ManualCache.Build (Some (PyList (next_id w) img_dims_literal)),
     World (clock w + 5) (Datatypes.S (next_id w))).
  cbv beta iota. by rewrite manual_cached.
Qed.
End manual_cache.

(** C9: in the version of cell 4, [self._img_dims] is [None], before any
    call, or the list of the three dimensions, which is not empty and so
    true; hence the five seconds are slept and the list is made at most once
    for an instance, and every call returns the same list object, the one
    stored in [self._img_dims]. *)
Theorem manual_cache_computes_once (n : nat) (w : Caching.world) :
  let run := Caching.get_img_dims_n n Caching.ManualCache.__init__ w in
  let self := run.1.2 in
  let l := Caching.PyList (Caching.next_id w) [(10, 20); (10, 20); (40, 40)]%Z in
  (Caching.ManualCache._img_dims self = None ∧ n = 0 ∨
   Caching.ManualCache._img_dims self = Some l ∧
   Caching.truthy (Caching.ManualCache._img_dims self) = true) ∧
  Caching.clock run.2 = Caching.clock w + (if decide (n = 0) then 0 else 5) ∧
  Caching.next_id run.2 = Caching.next_id w + (if decide (n = 0) then 0 else 1) ∧
  run.1.1 = replicate n (Some l) ∧
  (∀ r, r ∈ run.1.1 → r = Caching.ManualCache._img_dims self).
Proof.
  destruct n as [|n].
  - simpl. split_and!; [by left|lia|lia|done|]. intros r Hr. by apply elem_of_nil in Hr.
  - intros run self l. unfold self, run. rewrite manual_first. simpl.
    split_and!; [by right|done|lia|done|].
    intros r [->|Hr]%elem_of_cons; [done|]. by apply elem_of_replicate in Hr as [-> _].
Qed.

(** ** The notebooks, cell by cell *)

(** What the cells of [passing_data_around.ipynb] print, raise and display is
    what the notebook records. *)
Lemma passing_data_around_outputs :
  PassingDataAround.cell1 [] =
    ([[Text "Learning from x="; Interp (Array [Float "1.7"]);
       Text " and y="; Interp (Array [Int 2])];
      [Text "Learning from x="; Interp (Array [Float "0.3"]);
       Text " and y="; Interp (Array [Int 4])]], Return ()) ∧
  PassingDataAround.cell2 [] = ([], Raise (ValueError (TooMany 2))) ∧
  PassingDataAround.cell3 [] =
    ([[Text "Learning from cont="; Interp (Array [Float "1.7"]);
       Text ", idx="; Interp (Array [Int 1]); Text " and y=";
       Interp (Array [Int 2])];
      [Text "Learning from cont="; Interp (Array [Float "0.3"]);
       Text ", idx="; Interp (Array [Int 3]); Text " and y=";
       Interp (Array [Int 4])]], Return ()) ∧
  PassingDataAround.cell4 [] = ([], Return [Int 0; Int 1; Int 2; Int 3]) ∧
  PassingDataAround.cell5 [] = ([], Return [Int 0; Int 1; Int 2]) ∧
  PassingDataAround.cell6 [] = ([], Return [Int 0; Int 1; Int 2]) ∧
  PassingDataAround.cell7 [] = ([], Return [0; 1; 2; 3; 4]%Z).
Proof. split_and!; by vm_compute. Qed.

(** The caching notebook: the three analytics cells print the same counts
    and sleep 10, 5 and 5 seconds; cell 12 displays the counters; the body of
    [invert_and_multiply] runs in cells 9, 11 and 15 only. *)
Lemma caching_notebook_outputs :
  let run := Caching.run Caching.notebook Caching.fresh_kernel in
  map fst run.1 =
    [[]; []; [Caching.Printed Caching.the_counts];
     []; [Caching.Printed Caching.the_counts];
     []; [Caching.Printed Caching.the_counts];
     []; []; []; []; [Caching.Displayed (CacheInfo.Make 1 2 128 2)];
     []; []; []] ∧
  Caching.clock (Caching.the_world run.2) = 20 ∧
  (Caching.the_log run.2).1 = [2; 5; 2]%Z ∧
  map (λ cell, Caching.clock (Caching.the_world (cell Caching.fresh_kernel).2))
    [Caching.cell3; Caching.cell5; Caching.cell7] = [10; 5; 5].
Proof. split_and!; by vm_compute. Qed.

(** C7: unpacking a batch of three components into the two targets of
    [for x, y in train_set] raises [ValueError] with the message of the
    evaluation loop, before the model is called; in cell 2 it does so at the
    first batch; and no other code cell of the notebooks raises. *)
Theorem two_targets_for_a_triple
    (model : list value → io unit) (a b c : value) (out : list line) :
  (∀ rest : list (list value),
     PassingDataAround.loop_x_y model ([a; b; c] :: rest) out =
     (out, Raise (ValueError (TooMany 2)))) ∧
  (∀ xs ys zs : list value,
     PassingDataAround.loop_x_y model (Zip [a :: xs; b :: ys; c :: zs]) out =
     (out, Raise (ValueError (TooMany 2)))) ∧
  evalue (TooMany 2) = "too many values to unpack (expected 2)"%string ∧
  PassingDataAround.cell2 [] = ([], Raise (ValueError (TooMany 2))) ∧
  map (λ c, raised c.2) PassingDataAround.cells =
    [false; true; false; false; false; false; false] ∧
  Forall (λ c, raised c.2 = false)
    (Caching.run Caching.notebook Caching.fresh_kernel).1 ∧
  Forall (λ c, raised c.2 = false) ExuberantCtags.cells.
Proof.
  split_and!.
  - done.
  - done.
  - by vm_compute.
  - by vm_compute.
  - by vm_compute.
  - vm_compute. repeat constructor.
  - constructor.
Qed.

(** * More of the notebooks' code *)

(** ** The unpacking routine at its edges *)

Section unpack_edges.
Context {S A : Type} `{!Iterator S A}.
Implicit Types (v : S).

(** Too few items for the targets around the star. *)
Lemma unpack_iterable_star_short before after v :
  length (Iter.to_list v) < before + after →
  unpack_iterable before (Some after) v =
  Raise (ValueError (NotEnoughAtLeast (before + after) (length (Iter.to_list v)))).
Proof.
  intros Hlen. unfold unpack_iterable.
  pose proof (take_next_spec before v) as Hv.
  destruct (Iter.take_next before v) as [front [it|]].
  - destruct Hv as (Hb & -> & Hit). rewrite Hit, length_drop.
    destruct (Nat.ltb_spec (length (Iter.to_list v) - before) after); [|lia].
    do 3 f_equal. lia.
  - destruct Hv as (_ & ->). done.
Qed.

Lemma unpack_iterable_star_enough before after v :
  before + after ≤ length (Iter.to_list v) →
  let l := Iter.to_list v in
  unpack_iterable before (Some after) v =
  Return (take before l,
          Some (take (length l - before - after) (drop before l)),
          drop (length l - after) l).
Proof.
  intros Hlen l. rewrite unpack_iterable_items.
  by apply unpack_iterable_star.
Qed.

Lemma take_mid_drop (l : list A) before after :
  before + after ≤ length l →
  take before l ++ take (length l - before - after) (drop before l) ++
    drop (length l - after) l = l.
Proof.
  intros Hlen.
  replace (drop (length l - after) l)
    with (drop (length l - before - after) (drop before l)).
  - by rewrite take_drop, take_drop.
  - rewrite drop_drop. f_equal. lia.
Qed.

(** A target list without a star. *)
Lemma unpack_iterable_plain n v :
  let l := Iter.to_list v in
  unpack_iterable n None v =
  if length l <? n then Raise (ValueError (NotEnough n (length l)))
  else if n <? length l then Raise (ValueError (TooMany n))
  else Return (l, None, []).
Proof.
  intros l. unfold unpack_iterable, l.
  pose proof (take_next_spec n v) as Hv.
  destruct (Iter.take_next n v) as [front [it|]].
  - destruct Hv as (Hn & -> & Hit).
    destruct (Nat.ltb_spec (length (Iter.to_list v)) n); [lia|].
    destruct (next it) as [[a it']|] eqn:E.
    + rewrite to_list_unfold, E in Hit.
      assert (length (drop n (Iter.to_list v)) ≠ 0) as Hne by (by rewrite <- Hit).
      rewrite length_drop in Hne.
      destruct (Nat.ltb_spec n (length (Iter.to_list v))); [done|lia].
    + apply to_list_nil in E. rewrite E in Hit. symmetry in Hit.
      apply (f_equal length) in Hit. rewrite length_drop in Hit. simpl in Hit.
      destruct (Nat.ltb_spec n (length (Iter.to_list v))); [lia|].
      by rewrite take_ge by lia.
  - destruct Hv as (Hn & ->).
    by destruct (Nat.ltb_spec (length (Iter.to_list v)) n); [|lia].
Qed.
End unpack_edges.

(** X1: what unpacking with a starred target binds is a split of the items
    of the iterable: the targets before the star, the starred list and the
    targets after it, put end to end, are the items in their order, with one
    item for each plain target. *)
Theorem unpack_star_splits_the_items {S A} `{!Iterator S A}
    (before after : nat) (v : S) front star back :
  unpack_iterable before (Some after) v = Return (front, star, back) →
  ∃ mid, star = Some mid ∧ front ++ mid ++ back = Iter.to_list v ∧
    length front = before ∧ length back = after.
Proof.
  intros Hu.
  destruct (decide (before + after ≤ length (Iter.to_list v))) as [Hlen|Hlen].
  - rewrite unpack_iterable_star_enough in Hu by done.
    injection Hu as <- <- <-. eexists. split; [done|].
    split; [by apply take_mid_drop|].
    rewrite length_take, length_drop. lia.
  - rewrite unpack_iterable_star_short in Hu by lia. done.
Qed.

Lemma unpack_star_splits_the_items_witness :
  ∃ mid, Some [Int 0; Int 1; Int 2] = Some mid ∧
    [Str "first"] ++ mid ++ [Str "last"] =
      Iter.to_list [Str "first"; Int 0; Int 1; Int 2; Str "last"] ∧
    length [Str "first"] = 1 ∧ length [Str "last"] = 1.
Proof.
  apply (unpack_star_splits_the_items 1 1
           [Str "first"; Int 0; Int 1; Int 2; Str "last"]).
  vm_compute. reflexivity.
Defined.

(** X2: with fewer items than targets other than the starred one, unpacking
    with a starred target raises [ValueError]: not enough values to unpack,
    expected at least the number of those targets, got the number of items.
    So [*pre, last] fails on an empty iterable and [first, *mid, last] on one
    of fewer than two items. *)
Theorem unpack_star_too_short {S A} `{!Iterator S A}
    (before after : nat) (v : S) :
  length (Iter.to_list v) < before + after →
  unpack_iterable before (Some after) v =
    Raise (ValueError (NotEnoughAtLeast (before + after)
                         (length (Iter.to_list v)))) ∧
  evalue (NotEnoughAtLeast (before + after) (length (Iter.to_list v))) =
    ("not enough values to unpack (expected at least " +:+
       pretty (before + after) +:+ ", got " +:+
       pretty (length (Iter.to_list v)) +:+ ")")%string.
Proof. intros Hlen. split; [by apply unpack_iterable_star_short|done]. Qed.

Lemma unpack_star_too_short_witness :
  unpack_iterable 1 (Some 1) [Str "only"] =
    Raise (ValueError (NotEnoughAtLeast 2 1)) ∧
  evalue (NotEnoughAtLeast 2 1) =
    "not enough values to unpack (expected at least 2, got 1)"%string.
Proof.
  destruct (unpack_star_too_short 1 1 [Str "only"]) as [Hu He];
    [vm_compute; lia|].
  split; [exact Hu|]. vm_compute. reflexivity.
Defined.

(** X3: a target list of [n] names without a star accepts an iterable of
    exactly [n] items and binds them in order; with fewer items it raises
    [ValueError] "not enough values to unpack" with the number it got, with
    more "too many values to unpack". *)
Theorem unpack_plain_exact_count {S A} `{!Iterator S A} (n : nat) (v : S) :
  let l := Iter.to_list v in
  (length l < n →
   unpack_iterable n None v = Raise (ValueError (NotEnough n (length l)))) ∧
  (n < length l →
   unpack_iterable n None v = Raise (ValueError (TooMany n))) ∧
  (length l = n → unpack_iterable n None v = Return (l, None, [])).
Proof.
  intros l. pose proof (unpack_iterable_plain n v) as Hu. fold l in Hu. simpl in Hu.
  split_and!; intros Hlen; rewrite Hu.
  - by destruct (Nat.ltb_spec (length l) n); [|lia].
  - destruct (Nat.ltb_spec (length l) n); [lia|].
    by destruct (Nat.ltb_spec n (length l)); [|lia].
  - destruct (Nat.ltb_spec (length l) n); [lia|].
    by destruct (Nat.ltb_spec n (length l)); [lia|].
Qed.

Lemma unpack_plain_exact_count_witness :
  unpack_iterable 2 None [Int 1] =
    Raise (ValueError (NotEnough 2 (length (Iter.to_list [Int 1])))) ∧
  unpack_iterable 2 None [Int 1; Int 2; Int 3] = Raise (ValueError (TooMany 2)) ∧
  unpack_iterable 2 None [Int 1; Int 2] =
    Return (Iter.to_list [Int 1; Int 2], None, []).
Proof.
  split_and!.
  - apply (proj1 (unpack_plain_exact_count 2 [Int 1])). vm_compute. lia.
  - apply (proj1 (proj2 (unpack_plain_exact_count 2 [Int 1; Int 2; Int 3]))).
    vm_compute. lia.
  - apply (proj2 (proj2 (unpack_plain_exact_count 2 [Int 1; Int 2]))).
    vm_compute. reflexivity.
Defined.

(** ** [zip], [range] and generator expressions *)

Section zip_items.
Context {S A : Type} `{!Iterator S A}.

Lemma zip2_items (a b : S) :
  Iter.to_list (Zip [a; b]) =
  zip_with (λ x y, [x; y]) (Iter.to_list a) (Iter.to_list b).
Proof.
  remember (remaining a) as n eqn:Hn.
  revert a b Hn. induction (lt_wf n) as [n _ IH]; intros a b ->.
  rewrite (to_list_unfold (Zip [a; b])), (to_list_unfold a).
  simpl. unfold zip_next. simpl.
  destruct (next a) as [[x a']|] eqn:Ea; [|done].
  rewrite (to_list_unfold b).
  destruct (next b) as [[y b']|] eqn:Eb; [|done].
  simpl. f_equal. eapply IH; [|done]. by eapply next_remaining.
Qed.

Lemma zip3_items_eq (a b c : S) :
  Iter.to_list (Zip [a; b; c]) =
  zip_with (λ x yz, x :: yz) (Iter.to_list a)
    (zip_with (λ y z, [y; z]) (Iter.to_list b) (Iter.to_list c)).
Proof.
  remember (remaining a) as n eqn:Hn.
  revert a b c Hn. induction (lt_wf n) as [n _ IH]; intros a b c ->.
  rewrite (to_list_unfold (Zip [a; b; c])), (to_list_unfold a).
  simpl. unfold zip_next. simpl.
  destruct (next a) as [[x a']|] eqn:Ea; [|done].
  rewrite (to_list_unfold b).
  destruct (next b) as [[y b']|] eqn:Eb; [|done].
  rewrite (to_list_unfold c).
  destruct (next c) as [[z c']|] eqn:Ec; [|done].
  simpl. f_equal. eapply IH; [|done]. by eapply next_remaining.
Qed.
End zip_items.

(** X4: [zip] pairs the items of its iterables position by position and
    stops with the shortest: the two-way and three-way [zip]s of the training
    sets yield, in order, the tuples of the items at the same position, as
    many as the shortest iterable has items; without an iterable it yields
    nothing. *)
Theorem zip_stops_with_the_shortest {S A} `{!Iterator S A} (a b c : S) :
  Iter.to_list (Zip [a; b]) =
    zip_with (λ x y, [x; y]) (Iter.to_list a) (Iter.to_list b) ∧
  length (Iter.to_list (Zip [a; b])) =
    length (Iter.to_list a) `min` length (Iter.to_list b) ∧
  Iter.to_list (Zip [a; b; c]) =
    zip_with (λ x yz, x :: yz) (Iter.to_list a)
      (zip_with (λ y z, [y; z]) (Iter.to_list b) (Iter.to_list c)) ∧
  length (Iter.to_list (Zip [a; b; c])) =
    length (Iter.to_list a) `min`
      (length (Iter.to_list b) `min` length (Iter.to_list c)) ∧
  Iter.to_list (Zip ([] : list S)) = [].
Proof.
  split_and!.
  - apply zip2_items.
  - by rewrite zip2_items, length_zip_with.
  - apply zip3_items_eq.
  - by rewrite zip3_items_eq, !length_zip_with.
  - done.
Qed.

Section generator_items.
Context {S A B : Type} `{!Iterator S A}.

Lemma generator_items (f : A → B) (src : S) :
  Iter.to_list (Generator f src) = f <$> Iter.to_list src.
Proof.
  remember (remaining src) as n eqn:Hn.
  revert src Hn. induction (lt_wf n) as [n _ IH]; intros src ->.
  rewrite (to_list_unfold (Generator f src)), (to_list_unfold src).
  simpl. unfold generator_next. simpl.
  destruct (next src) as [[x src']|] eqn:E; [|done].
  simpl. f_equal. eapply IH; [|done]. by eapply next_remaining.
Qed.
End generator_items.

(** X8: a generator expression [(f item for item in src)] yields the value
    of [f] on each item of [src], in order and as many; so unpacking it binds
    what unpacking the list of those values binds, and for
    [(item for item in src)] what unpacking [src] itself binds. *)
Theorem generator_yields_each_item {S A B} `{!Iterator S A}
    (f : A → B) (src : S) (argcnt : nat) (argcntafter : option nat) :
  Iter.to_list (Generator f src) = f <$> Iter.to_list src ∧
  unpack_iterable argcnt argcntafter (Generator f src) =
    unpack_iterable argcnt argcntafter (f <$> Iter.to_list src) ∧
  unpack_iterable argcnt argcntafter (Generator (λ item : A, item) src) =
    unpack_iterable argcnt argcntafter src.
Proof.
  split_and!.
  - apply generator_items.
  - by rewrite unpack_iterable_items, generator_items.
  - rewrite unpack_iterable_items, generator_items, list_fmap_id.
    by rewrite <- unpack_iterable_items.
Qed.

Lemma range_items (start stop : Z) :
  Iter.to_list (Range start stop) = seqZ start (stop - start).
Proof.
  remember (Z.to_nat (stop - start)) as n eqn:Hn.
  revert start Hn. induction n as [|n IH]; intros start Hn.
  - rewrite to_list_unfold. simpl. unfold range_next. simpl.
    destruct (Z.ltb_spec start stop); [lia|]. by rewrite seqZ_nil by lia.
  - rewrite to_list_unfold. simpl. unfold range_next. simpl.
    destruct (Z.ltb_spec start stop); [|lia].
    rewrite seqZ_cons by lia. f_equal.
    rewrite IH by lia. f_equal; lia.
Qed.

(** X9: [range(start, stop)] yields the integers from [start] up to, not
    including, [stop], and nothing when [stop <= start]; so
    [*everything, = range(n)] binds [everything] to the list of the [n]
    integers [0] to [n - 1], the empty list for [n <= 0]. *)
Theorem range_yields_start_to_stop (start stop n : Z) :
  Iter.to_list (Range start stop) = seqZ start (stop - start) ∧
  length (Iter.to_list (Range start stop)) = Z.to_nat (stop - start) ∧
  (∀ i : nat, (Z.of_nat i < stop - start)%Z →
     Iter.to_list (Range start stop) !! i = Some (start + Z.of_nat i)%Z) ∧
  unpack_iterable 0 (Some 0) (Range 0 n) = Return ([], Some (seqZ 0 n), []).
Proof.
  split_and!.
  - apply range_items.
  - by rewrite range_items, length_seqZ.
  - intros i Hi. by rewrite range_items, lookup_seqZ_lt.
  - rewrite unpack_iterable_star_enough by (simpl; lia).
    rewrite range_items, Z.sub_0_r, !Nat.sub_0_r, take_0, drop_0, drop_all.
    by rewrite take_ge.
Qed.

(** ** The training loops on any training set *)

Section more_loops.
Import PassingDataAround.

Lemma for_list_pairs (la lb : list value) out :
  for_list (zip_with (λ x y, [x; y]) la lb) (λ _ batch, body_x_y m batch) () out =
  (out ++ zip_with (λ x y, [Text "Learning from x="; Interp x;
                            Text " and y="; Interp y]) la lb,
   Return ()).
Proof.
  revert lb out. induction la as [|x la IH]; intros [|y lb] out;
    try (simpl; by rewrite app_nil_r).
  cbn [zip_with for_list]. unfold mbind at 1, io_bind at 1.
  change (body_x_y m [x; y] out) with
    (out ++ [[Text "Learning from x="; Interp x; Text " and y="; Interp y]],
     Return ()).
  cbv beta iota.
  by rewrite IH, <- app_assoc.
Qed.

Lemma pairs_have_two (la lb : list value) :
  Forall (λ batch, length batch = 2) (zip_with (λ x y, [x; y]) la lb).
Proof.
  revert lb. induction la as [|x la IH]; intros [|y lb]; simpl; try constructor; auto.
Qed.

(** The body of cell 4 binds its targets whatever was bound before. *)
Lemma cell4_body_last (lst : list (list value)) (item : list value) b out :
  Forall (λ item, 1 ≤ length item) (lst ++ [item]) →
  for_list (lst ++ [item])
    (λ _ item,
       '(_, all_but_last, last) ← lift (unpack_iterable 0 (Some 1) item);
       mret (all_but_last, last)) b out =
  (out, Return (Some (take (length item - 1) item), drop (length item - 1) item)).
Proof.
  revert b. induction lst as [|a lst IH]; intros b Hall; simpl.
  - apply (proj1 (Forall_singleton _ _)) in Hall. simpl in Hall.
    unfold mbind, io_bind, lift.
    rewrite unpack_iterable_star by (simpl; lia). simpl.
    by rewrite Nat.sub_0_r.
  - apply Forall_cons in Hall as [Ha Hall]. simpl in Ha.
    unfold mbind at 1, io_bind at 1, lift.
    rewrite unpack_iterable_star by (simpl; lia). simpl.
    by apply IH.
Qed.
End more_loops.

(** X5: the training loop of cell 1, [for x, y in zip(xs, ys): m(x, y)],
    never raises: whatever the two iterables, it prints one line for each
    pair of items at the same position, in order, as many as the shorter
    iterable has items. *)
Theorem loop_x_y_prints_each_pair {S} `{!Iterator S value} (a b : S) (out : list line) :
  PassingDataAround.loop_x_y PassingDataAround.m (Zip [a; b]) out =
  (out ++ zip_with (λ x y, [Text "Learning from x="; Interp x;
                            Text " and y="; Interp y])
            (Iter.to_list a) (Iter.to_list b),
   Return ()).
Proof.
  unfold PassingDataAround.loop_x_y.
  rewrite for_in_items, zip2_items. apply for_list_pairs.
Qed.

(** X6: the starred loop of cell 3 also serves the two-input model of
    cell 1: over any two-way [zip], [for *x, y in train_set: m( *x, y)] does
    what [for x, y in train_set: m(x, y)] does. *)
Theorem starred_loop_serves_pairs {S} `{!Iterator S value} (a b : S) (out : list line) :
  PassingDataAround.loop_starx_y PassingDataAround.m (Zip [a; b]) out =
  PassingDataAround.loop_x_y PassingDataAround.m (Zip [a; b]) out.
Proof.
  unfold PassingDataAround.loop_starx_y, PassingDataAround.loop_x_y.
  rewrite !for_in_items, zip2_items.
  apply for_list_ext with (P := λ batch, length batch = 2); [apply pairs_have_two|].
  intros [] [|x [|y [|??]]] out'; simpl; done.
Qed.

(** X7: the starred loop hands the model as many arguments as a batch has
    components; a model whose [forward] takes another number of inputs
    raises [TypeError] at the first batch and prints nothing: [em] on
    two-component batches, [m] on three-component ones. *)
Theorem starred_loop_arity_mismatch
    (x y z : value) (a b c : list value) (out : list line) :
  PassingDataAround.loop_starx_y PassingDataAround.em (Zip [x :: a; y :: b]) out =
    (out, Raise (TypeError (ArityMismatch "forward" 3 2))) ∧
  PassingDataAround.loop_starx_y PassingDataAround.m
    (Zip [x :: a; y :: b; z :: c]) out =
    (out, Raise (TypeError (ArityMismatch "forward" 2 3))).
Proof. split; reflexivity. Qed.

(** X10: when the loop [for *all_but_last, last in lst: pass] of cell 4 is
    over a list whose items are not empty, its targets hold what the last
    item of the list bound: [all_but_last] the list of its items but the
    final one, [last] the final one; nothing is printed. *)
Theorem loop_leaves_the_last_binding
    (lst : list (list value)) (item : list value) (out : list line) :
  Forall (λ item, 1 ≤ length item) (lst ++ [item]) →
  ∃ last, item !! (length item - 1) = Some last ∧
    Cell4.loop (lst ++ [item]) out =
    (out, Return (Some (take (length item - 1) item), [last])).
Proof.
  intros Hall.
  assert (1 ≤ length item) as Hitem.
  { apply Forall_app in Hall as [_ Hitem].
    by apply (proj1 (Forall_singleton _ _)) in Hitem. }
  destruct (last_item item Hitem) as (last & Hlast & Hdrop).
  exists last. split; [done|].
  unfold Cell4.loop. rewrite for_in_items, list_to_list, cell4_body_last by done.
  by rewrite Hdrop.
Qed.

Lemma loop_leaves_the_last_binding_witness :
  ∃ last, [Int 0; Int 1; Int 2; Int 3; Str "last"] !! 4 = Some last ∧
    Cell4.loop ([[Int 7]] ++ [[Int 0; Int 1; Int 2; Int 3; Str "last"]]) [] =
    ([], Return (Some [Int 0; Int 1; Int 2; Int 3], [last])).
Proof.
  apply (loop_leaves_the_last_binding [[Int 7]]
           [Int 0; Int 1; Int 2; Int 3; Str "last"] []).
  repeat constructor.
Defined.

(** ** The cache of [lru_cache], whatever its load *)

Section lru_more.
Import Functools.
Context {K V E : Type} `{Countable K}.
Variable maxsize : nat.
Variable user_function : K → E → V * E.
Implicit Types (c : list (K * V)) (st : lru K V) (k key : K) (v : V) (e : E).

(** The two ways a call can go. *)
Lemma wrapper_cases key st e v st' e' :
  maxsize ≠ 0 →
  wrapper maxsize user_function key st e = (v, st', e') →
  (cache_get key (cache st) = Some v ∧ e' = e ∧
   hits st' = Datatypes.S (hits st) ∧ misses st' = misses st ∧
   cache st' = unlink key (cache st) ++ [(key, v)] ∧ full st' = full st) ∨
  (cache_get key (cache st) = None ∧ user_function key e = (v, e') ∧
   hits st' = hits st ∧ misses st' = Datatypes.S (misses st) ∧
   cache st' = (if full st then tail (cache st) else cache st) ++ [(key, v)] ∧
   full st' = if full st then true
              else bool_decide (maxsize ≤ Datatypes.S (length (cache st)))).
Proof.
  intros Hm. unfold wrapper. rewrite decide_False by done.
  destruct (cache_get key (cache st)) as [r|] eqn:Hget.
  - intros [= <- <- <-]. left. done.
  - destruct (user_function key e) as [r e1]. right.
    destruct (full st) eqn:Hfull; injection H0 as <- <- <-; simpl;
      rewrite ?Hfull; split_and!; try done.
    by rewrite length_app, Nat.add_1_r.
Qed.





(** The cache never holds a key twice nor more than [maxsize] entries. *)
Lemma wrapper_wf key st e v st' e' :
  maxsize ≠ 0 → wf maxsize st → length (cache st) ≤ maxsize →
  wrapper maxsize user_function key st e = (v, st', e') →
  wf maxsize st' ∧ length (cache st') ≤ maxsize.
Proof.
  intros Hm [Hnd Hfull] Hlen Hw.
  destruct (wrapper_cases _ _ _ _ _ _ Hm Hw)
    as [(Hget & _ & _ & _ & Hc & Hf)|(Hget & _ & _ & _ & Hc & Hf)].
  - pose proof (unlink_relink user_function _ _ _ Hnd Hget) as Hperm. rewrite <- Hc in Hperm.
    split; [split|].
    + by rewrite Hperm.
    + by rewrite Hf, (Permutation_length Hperm).
    + by rewrite (Permutation_length Hperm).
  - apply (cache_get_None user_function) in Hget.
    destruct (full st) eqn:Hfl.
    + symmetry in Hfull. apply bool_decide_eq_true in Hfull.
      destruct (cache st) as [|[k0 v0] c] eqn:Hcache; simpl in *; [lia|].
      apply NoDup_cons in Hnd as [_ Hnd]. apply not_elem_of_cons in Hget as [_ Hget].
      assert (length (cache st') = Datatypes.S (length c)) as Hl
        by (rewrite Hc, length_app; simpl; lia).
      split; [split|].
      * rewrite Hc, fmap_app. apply NoDup_app.
        split_and!; [done| |apply NoDup_singleton].
        intros k Hk Hk'%list_elem_of_singleton. simpl in Hk'. by subst.
      * rewrite Hf, Hl. symmetry. by apply bool_decide_eq_true.
      * lia.
    + symmetry in Hfull. apply bool_decide_eq_false in Hfull.
      assert (length (cache st') = Datatypes.S (length (cache st))) as Hl
        by (rewrite Hc, length_app; simpl; lia).
      split; [split|].
      * rewrite Hc, fmap_app. apply NoDup_app.
        split_and!; [done| |apply NoDup_singleton].
        intros k Hk Hk'%list_elem_of_singleton. simpl in Hk'. by subst.
      * by rewrite Hf, Hl.
      * lia.
Qed.

Lemma calls_wf keys : ∀ st e,
  maxsize ≠ 0 → wf maxsize st → length (cache st) ≤ maxsize →
  let st' := (calls maxsize user_function keys st e).1.2 in
  wf maxsize st' ∧ length (cache st') ≤ maxsize ∧
  hits st' + misses st' = hits st + misses st + length keys ∧
  misses st ≤ misses st' ∧
  length (cache st') + misses st ≤ length (cache st) + misses st'.
Proof.
  induction keys as [|key keys IH]; intros st e Hm Hwf Hlen; simpl.
  { split_and!; [done|done|lia|lia|lia]. }
  destruct (wrapper maxsize user_function key st e) as [[v st1] e1] eqn:Hw.
  destruct (wrapper_wf _ _ _ _ _ _ Hm Hwf Hlen Hw) as [Hwf1 Hlen1].
  specialize (IH st1 e1 Hm Hwf1 Hlen1).
  destruct (calls maxsize user_function keys st1 e1) as [[rs st'] e'].
  simpl in *. destruct IH as (Hwf' & Hlen' & Hsum & Hmono & Hsize).
  assert (length (cache st1) ≤ Datatypes.S (length (cache st)) ∧
          hits st1 + misses st1 = Datatypes.S (hits st + misses st) ∧
          misses st ≤ misses st1 ∧
          length (cache st1) + misses st ≤ length (cache st) + misses st1)
    as (? & ? & ? & ?).
  { destruct Hwf as [Hnd _].
    destruct (wrapper_cases _ _ _ _ _ _ Hm Hw)
      as [(Hget & _ & -> & -> & Hc & _)|(Hget & _ & -> & -> & Hc & _)].
    - pose proof (unlink_relink user_function _ _ _ Hnd Hget) as Hperm. rewrite <- Hc in Hperm.
      rewrite (Permutation_length Hperm). lia.
    - rewrite Hc, length_app. simpl.
      destruct (full st); [|lia].
      destruct (cache st); simpl; lia. }
  split_and!; [done|done|lia|lia|lia].
Qed.

End lru_more.

Section distinct_arguments.
Context {K : Type} `{Countable K}.

Lemma first_time_distinct (seen keys : list K) :
  Memo.first_time seen keys =
  size (list_to_set keys ∖ list_to_set seen : gset K).
Proof.
  revert seen. induction keys as [|key keys IH]; intros seen; simpl.
  - assert ((∅ ∖ list_to_set seen : gset K) = ∅) as -> by set_solver.
    by rewrite size_empty.
  - rewrite IH. case_decide as Hin; simpl.
    + f_equal. apply set_eq. intros x. set_unfold. naive_solver.
    + assert ((({[key]} ∪ list_to_set keys) ∖ list_to_set seen : gset K) =
              {[key]} ∪ list_to_set keys ∖ list_to_set (key :: seen)) as ->.
      { apply set_eq. intros x. set_unfold.
        destruct (decide (x = key)) as [->|]; naive_solver. }
      pose proof (size_union (C:=gset K) {[key]}
                    (list_to_set keys ∖ list_to_set (key :: seen))) as Hsz.
      rewrite Hsz; [by rewrite size_singleton|].
      apply elem_of_disjoint. intros x. set_unfold. naive_solver.
Qed.
End distinct_arguments.



(** ** [get_img_dims], call after call *)

Section dataset_costs.
Import Caching.

Lemma uncached_n n w :
  get_img_dims_n n Uncached.__init__ w =
  ((λ i, Some (PyList (next_id w + i) img_dims_literal)) <$> seq 0 n,
   Uncached.__init__, World (clock w + 5 * n) (next_id w + n)).
Proof.
  revert w. induction n as [|n IH]; intros [t i].
  - simpl. by rewrite !Nat.add_0_r.
  - cbn [get_img_dims_n].
    change (get_img_dims Uncached.__init__ (World t i)) with
      (Some (PyList i img_dims_literal), Uncached.__init__,
       World (t + 5) (Datatypes.S i)).
    cbv beta iota. rewrite IH. cbn [clock next_id].
    rewrite <- cons_seq, fmap_cons, <- fmap_S_seq, <- list_fmap_compose, Nat.add_0_r.
    f_equal; [f_equal|f_equal; lia].
    f_equal. apply list_fmap_ext. intros _ j _. simpl. do 2 f_equal. lia.
Qed.

(** Every miss of the decorated method sleeps five seconds and makes one
    list; a hit does neither. *)
Lemma lru_img_dims_cost selves : ∀ (c : LruCached.method_cache) w,
  let run := Functools.calls Functools.default_maxsize
               LruCached.get_img_dims_body selves c w in
  clock run.2 + 5 * Functools.misses c =
    clock w + 5 * Functools.misses run.1.2 ∧
  next_id run.2 + Functools.misses c = next_id w + Functools.misses run.1.2.
Proof.
  induction selves as [|self selves IH]; intros c w; simpl; [lia|].
  destruct (Functools.wrapper _ _ self c w) as [[v c1] w1] eqn:Hw.
  specialize (IH c1 w1).
  destruct (Functools.calls _ _ selves c1 w1) as [[rs c'] w']. simpl in *.
  assert (Functools.default_maxsize ≠ 0) as Hm by done.
  destruct (wrapper_cases _ _ _ _ _ _ _ _ Hm Hw)
    as [(_ & -> & _ & Hmiss & _)|(_ & Hbody & _ & Hmiss & _)].
  - rewrite Hmiss in IH. lia.
  - injection Hbody as _ <-. rewrite Hmiss in IH. simpl in IH. lia.
Qed.
End dataset_costs.

(** X12: the version of cell 2 computes at every call: [n] calls of
    [get_img_dims()] sleep [5 * n] seconds and return [n] different list
    objects, each with the three dimensions. *)
Theorem uncached_computes_every_time (n : nat) (w : Caching.world) :
  let run := Caching.get_img_dims_n n Caching.Uncached.__init__ w in
  Caching.clock run.2 = Caching.clock w + 5 * n ∧
  length run.1.1 = n ∧
  NoDup run.1.1 ∧
  ∀ i, i < n →
    run.1.1 !! i =
    Some (Some (Caching.PyList (Caching.next_id w + i)
                  [(10, 20); (10, 20); (40, 40)]%Z)).
Proof.
  intros run. unfold run. rewrite uncached_n. simpl.
  split_and!.
  - done.
  - by rewrite length_fmap, length_seq.
  - apply NoDup_fmap_2; [|apply NoDup_seq].
    intros i j [=]. lia.
  - intros i Hi. by rewrite list_lookup_fmap, lookup_seq_lt.
Qed.

(** X13: with the decorated method of cell 6, time is spent and a list is
    made on a miss only: after any calls on any instances, starting from an
    empty cache, the seconds slept are five times the misses [cache_info()]
    reports, the lists made are as many as the misses, and hits and misses
    add up to the calls. *)
Theorem lru_method_pays_per_miss
    (selves : list Caching.LruCached.ExtendedFolder)
    (c : Caching.LruCached.method_cache) (w : Caching.world) :
  let run := Functools.calls Functools.default_maxsize
               Caching.LruCached.get_img_dims_body selves
               (Functools.cache_clear c) w in
  let info := Functools.cache_info Functools.default_maxsize run.1.2 in
  Caching.clock run.2 = Caching.clock w + 5 * CacheInfo.misses info ∧
  Caching.next_id run.2 = Caching.next_id w + CacheInfo.misses info ∧
  CacheInfo.hits info + CacheInfo.misses info = length selves.
Proof.
  intros run info.
  destruct (lru_img_dims_cost selves (Functools.cache_clear c) w) as [Hclock Hid].
  destruct (calls_wf Functools.default_maxsize
              Caching.LruCached.get_img_dims_body selves
              (Functools.cache_clear c) w)
    as (_ & _ & Hsum & _); [done|by apply wf_empty|simpl; lia|].
  fold run in Hclock, Hid, Hsum. simpl in *. lia.
Qed.

(** X14: with at most 128 instances in play, the decorated method computes
    once for each instance: the seconds slept are five times the number of
    distinct instances called, however often each is called, and two calls
    on the same instance return the same list object. *)
Theorem lru_method_computes_once_per_instance
    (selves : list Caching.LruCached.ExtendedFolder)
    (c : Caching.LruCached.method_cache) (w : Caching.world) :
  Memo.distinct selves ≤ Functools.default_maxsize →
  let run := Functools.calls Functools.default_maxsize
               Caching.LruCached.get_img_dims_body selves
               (Functools.cache_clear c) w in
  Caching.clock run.2 = Caching.clock w + 5 * Memo.distinct selves ∧
  ∀ i j self, selves !! i = Some self → selves !! j = Some self →
    run.1.1 !! i = run.1.1 !! j.
Proof.
  intros Hd run.
  destruct (lru_img_dims_cost selves (Functools.cache_clear c) w) as [Hclock _].
  fold run in Hclock.
  destruct (calls_fits Functools.default_maxsize
              Caching.LruCached.get_img_dims_body selves
              (Functools.cache_clear c) w)
    as (rs & st' & w' & Hrun & _ & _ & _ & _ & _ & Hsame & _ & Hmisses);
    [done|by apply wf_empty|done|].
  fold run in Hrun. rewrite Hrun in *.
  cbn [fst snd Functools.misses Functools.cache_clear] in Hclock, Hmisses.
  rewrite Hmisses, first_time_distinct in Hclock.
  split; [|done].
  unfold Memo.distinct.
  change (list_to_set (Functools.cache (Functools.cache_clear c)).*1)
    with (∅ : gset Caching.LruCached.ExtendedFolder) in Hclock.
  rewrite difference_empty_L in Hclock.
  cbn [fst snd]. lia.
Qed.

Lemma lru_method_computes_once_per_instance_witness :
  let a := Caching.LruCached.Build 0 in
  let b := Caching.LruCached.Build 1 in
  Caching.clock
    (Functools.calls Functools.default_maxsize
       Caching.LruCached.get_img_dims_body [a; b; a; a]
       (Functools.cache_clear Functools.empty) (Caching.World 0 2)).2 =
  0 + 5 * Memo.distinct [a; b; a; a].
Proof.
  intros a b.
  apply (lru_method_computes_once_per_instance [a; b; a; a]
           Functools.empty (Caching.World 0 2)).
  vm_compute. lia.
Defined.

(** ** [Counter] *)

Section counter.
Import Caching.

Lemma count_elements_lookup (l : list dim) (c : gmap dim nat) (k : dim) :
  count_elements l c !! k =
  if decide (length (filter (λ x, x = k) l) = 0) then c !! k
  else Some (default 0 (c !! k) + length (filter (λ x, x = k) l)).
Proof.
  revert c. induction l as [|x l IH]; intros c; [done|].
  unfold count_elements in *. cbn [foldl]. rewrite IH.
  destruct (decide (x = k)) as [->|Hne].
  - rewrite filter_cons_True by done. rewrite lookup_insert_eq. simpl.
    case_decide as Hl.
    + rewrite Hl. f_equal. lia.
    + f_equal. lia.
  - rewrite filter_cons_False by done. by rewrite lookup_insert_ne.
Qed.
End counter.

(** X11: [Counter] maps each element of the list to the number of times
    it occurs in it and has no entry for anything else; of [None] it is
    empty.  So [get_dim_counts()] counts every dimension [get_img_dims()]
    returns, and only those. *)
Theorem Counter_counts_occurrences
    (l : Caching.pylist Caching.dim) (k : Caching.dim) :
  (k ∈ Caching.items l →
   Caching.Counter (Some l) !! k =
   Some (length (filter (λ x, x = k) (Caching.items l))) ∧
   1 ≤ length (filter (λ x, x = k) (Caching.items l))) ∧
  (k ∉ Caching.items l → Caching.Counter (Some l) !! k = None) ∧
  Caching.Counter None !! k = None.
Proof.
  unfold Caching.Counter. rewrite count_elements_lookup, lookup_empty. simpl.
  split_and!.
  - intros Hin.
    assert (k ∈ filter (λ x, x = k) (Caching.items l)) as Hk
      by (by apply list_elem_of_filter).
    destruct (filter (λ x, x = k) (Caching.items l)) as [|? ?] eqn:Hf;
      [by apply elem_of_nil in Hk|].
    simpl. split; [done|lia].
  - intros Hnot.
    destruct (filter (λ x, x = k) (Caching.items l)) as [|x ?] eqn:Hf; [done|].
    assert (x ∈ filter (λ x, x = k) (Caching.items l)) as Hx
      by (rewrite Hf; left).
    apply list_elem_of_filter in Hx as [-> Hx]. done.
  - done.
Qed.

Lemma Counter_counts_occurrences_witness :
  let l := Caching.PyList 0 [(10, 20); (10, 20); (40, 40)]%Z in
  (Caching.Counter (Some l) !! (10, 20)%Z =
     Some (length (filter (λ x, x = (10, 20)%Z) (Caching.items l))) ∧
   1 ≤ length (filter (λ x, x = (10, 20)%Z) (Caching.items l))) ∧
  Caching.Counter (Some l) !! (1, 1)%Z = None.
Proof.
  intros l. split.
  - apply (proj1 (Counter_counts_occurrences l (10, 20)%Z)). left.
  - apply (proj1 (proj2 (Counter_counts_occurrences l (1, 1)%Z))).
    intros Hin. vm_compute in Hin.
    repeat (apply elem_of_cons in Hin as [Hin|Hin]; [discriminate Hin|]).
    by apply elem_of_nil in Hin.
Defined.
